(** * The S3/SQS gateway: a shallow embedding of its JavaScript sources

    The development follows the repository file by file:
    - [JS]: the fragment of the language and of its built-in objects that the
      program relies on (property reads, truthiness, string conversion,
      [parseInt], [Math.min], the two regular-expression replacements);
    - [Runtime]: the process state the modules share ([process.env], the
      lazily created clients, the clock), the outside world (queue service,
      socket server, URL signer) and the effect monad with exceptions;
    - [SqsConfig], [S3Config], [UploadRoutes], [Index]: the functions of
      sqsConfig.js, s3Config.js, uploadRoutes.js and index.js.

    Effects are observed through a trace of events, oldest first.  An
    [async] function is read sequentially: each [await] either yields the
    value its promise resolves to or throws what the promise rejects with.
    Calls that leave the process (the queue service, the socket server, the
    URL signer) are answered by the world, which may make any of them fail;
    [JSON.parse], [JSON.stringify] and [Date.prototype.toISOString] are
    parameters ([Host]). *)

From Stdlib Require Import ZArith String Ascii List Lia Bool.
From stdpp Require Import gmap strings list pretty.

Set Warnings "-register-all".
Open Scope string_scope.
Open Scope Z_scope.

(* ===================================================================== *)
(** ** The language fragment *)
(* ===================================================================== *)

Module JS.

(** Values that travel through the program: what [JSON.parse] produces,
    plus [undefined].  A number is an integer (the program never computes
    with fractions) and a string is a sequence of bytes.  The built-ins
    below agree with the language on the safe integers and on ASCII text:
    [plain], at the end of this module, is that range, and a statement that
    depends on how a number prints or parses assumes it. *)
Inductive value : Type :=
| VUndefined
| VNull
| VBool (b : bool)
| VNum (n : Z)
| VStr (s : string)
| VArr (xs : list value)
| VObj (props : list (string * value)).

(** The result of a numeric built-in: an integer or [NaN]. *)
Inductive jsnum : Type :=
| NaN
| Int (n : Z).

(** What a [throw] carries. *)
Inductive exn : Type :=
| Error (message : string)          (* new Error(message), thrown by the program *)
| TypeError
| SyntaxError
| RangeError
| ServiceError (name : string).     (* a rejection coming from a library call *)

Definition is_empty (s : string) : bool :=
  match s with EmptyString => true | String _ _ => false end.

(** [!!v] *)
Definition truthy (v : value) : bool :=
  match v with
  | VUndefined | VNull => false
  | VBool b => b
  | VNum n => negb (n =? 0)
  | VStr s => negb (is_empty s)
  | VArr _ | VObj _ => true
  end.

(** Own properties, in insertion order. *)
Fixpoint lookup_prop (k : string) (props : list (string * value)) : option value :=
  match props with
  | [] => None
  | (k', v) :: rest => if String.eqb k' k then Some v else lookup_prop k rest
  end.

Definition own_key (k : string) (props : list (string * value)) : bool :=
  match lookup_prop k props with Some _ => true | None => false end.

(** [o[k] = v] on a property list: an existing key keeps its place, a new
    key goes last.  This is also how an object literal treats a repeated
    key, and so how [{...data, topic, timestamp}] is built. *)
Fixpoint obj_set (k : string) (v : value) (props : list (string * value))
  : list (string * value) :=
  match props with
  | [] => [(k, v)]
  | (k', v') :: rest =>
      if String.eqb k' k then (k, v) :: rest else (k', v') :: obj_set k v rest
  end.

(** [v.k] for a property name that no prototype defines ([topic], [text],
    [fileKey], [expiresIn]): reading from [null] or [undefined] throws a
    TypeError ([None]); primitives and arrays have no such property. *)
Definition get_field (v : value) (k : string) : option value :=
  match v with
  | VUndefined | VNull => None
  | VObj props => Some (default VUndefined (lookup_prop k props))
  | _ => Some VUndefined
  end.

(** The abstract operation ToString, as template literals and [parseInt]
    apply it.  An object answers ["[object Object]"] through
    [Object.prototype.toString], unless an own [toString] property (never
    callable in parsed data) shadows it: then no conversion exists and a
    TypeError is thrown ([None]).  An array joins its elements with commas,
    [null] and [undefined] elements giving the empty string.  A number is
    printed digit by digit, as the language prints a safe integer
    ([is_safe_integer]); a larger one the language prints rounded, and from
    10^21 on in exponent form, which is outside this model. *)
Fixpoint ToString (v : value) : option string :=
  match v with
  | VUndefined => Some "undefined"
  | VNull => Some "null"
  | VBool true => Some "true"
  | VBool false => Some "false"
  | VNum n => Some (pretty n)
  | VStr s => Some s
  | VArr xs =>
      (fix join (l : list value) : option string :=
         match l with
         | [] => Some ""
         | x :: rest =>
             let sx :=
               match x with
               | VUndefined | VNull => Some ""
               | _ => ToString x
               end in
             match sx, rest with
             | None, _ => None
             | Some s, [] => Some s
             | Some s, _ :: _ =>
                 match join rest with
                 | None => None
                 | Some t => Some (s ++ "," ++ t)
                 end
             end
         end) xs
  | VObj props => if own_key "toString" props then None else Some "[object Object]"
  end.

(** *** parseInt

    The white space skipped is the ASCII one (the language also skips the
    Unicode spaces, which ASCII text does not contain), and the result is
    the integer that was read (the language rounds it to a double, which
    changes nothing on the safe integers). *)

Definition is_white_space (c : ascii) : bool :=
  let n := nat_of_ascii c in
  (Nat.eqb n 9 || Nat.eqb n 10 || Nat.eqb n 11 || Nat.eqb n 12
   || Nat.eqb n 13 || Nat.eqb n 32)%bool.

Fixpoint trim_start (s : string) : string :=
  match s with
  | String c rest => if is_white_space c then trim_start rest else s
  | EmptyString => s
  end.

Definition digit_value (radix : Z) (c : ascii) : option Z :=
  let n := Z.of_nat (nat_of_ascii c) in
  let d :=
    if (48 <=? n) && (n <=? 57) then Some (n - 48)
    else if (97 <=? n) && (n <=? 122) then Some (n - 87)
    else if (65 <=? n) && (n <=? 90) then Some (n - 55)
    else None in
  match d with
  | Some k => if k <? radix then Some k else None
  | None => None
  end.

(** The value of the longest prefix of [s] made of radix digits, started
    from the digits already read ([None]: none yet). *)
Fixpoint parse_digits (radix : Z) (s : string) (acc : option Z) : option Z :=
  match s with
  | EmptyString => acc
  | String c rest =>
      match digit_value radix c with
      | Some d => parse_digits radix rest (Some (default 0 acc * radix + d))
      | None => acc
      end
  end.

Definition parseInt_string (s : string) : jsnum :=
  let s1 := trim_start s in
  let '(sign, s2) :=
    match s1 with
    | String "-" rest => (-1, rest)
    | String "+" rest => (1, rest)
    | _ => (1, s1)
    end in
  let '(radix, s3) :=
    match s2 with
    | String "0" (String "x" rest) => (16, rest)
    | String "0" (String "X" rest) => (16, rest)
    | _ => (10, s2)
    end in
  match parse_digits radix s3 None with
  | None => NaN
  | Some n => Int (sign * n)
  end.

(** [parseInt(v)]: the argument is converted with ToString first. *)
Definition parseInt (v : value) : option jsnum :=
  match ToString v with
  | None => None
  | Some s => Some (parseInt_string s)
  end.

(** [Math.min(a, b)] *)
Definition Math_min (a b : jsnum) : jsnum :=
  match a, b with
  | Int x, Int y => Int (Z.min x y)
  | _, _ => NaN
  end.

(** [a * b] and [a + b] on numbers *)
Definition num_mul (a b : jsnum) : jsnum :=
  match a, b with
  | Int x, Int y => Int (x * y)
  | _, _ => NaN
  end.

Definition num_add (a b : jsnum) : jsnum :=
  match a, b with
  | Int x, Int y => Int (x + y)
  | _, _ => NaN
  end.

(** [new Date(t)]: the time value, or [None] for an Invalid Date (one that
    [toISOString] rejects with a RangeError). *)
Definition time_clip (t : jsnum) : option Z :=
  match t with
  | NaN => None
  | Int z => if Z.abs z <=? 8640000000000000 then Some z else None
  end.

(** [s.replace(/^\//, '')] *)
Definition strip_leading_slash (s : string) : string :=
  match s with
  | String c rest => if Ascii.eqb c "/" then rest else s
  | EmptyString => s
  end.

(** [s.replace(/\/$/, '')] *)
Fixpoint strip_trailing_slash (s : string) : string :=
  match s with
  | EmptyString => EmptyString
  | String c EmptyString => if Ascii.eqb c "/" then EmptyString else s
  | String c rest => String c (strip_trailing_slash rest)
  end.

(** *** Where the built-ins are exact

    A number of the language is a double.  Up to [Number.MAX_SAFE_INTEGER]
    in magnitude every integer is one, prints with all its digits and is
    what [parseInt] returns for these digits. *)

Definition MAX_SAFE_INTEGER : Z := 9007199254740991.

Definition is_safe_integer (n : Z) : bool := Z.abs n <=? MAX_SAFE_INTEGER.

Definition is_ascii (s : string) : bool :=
  forallb (fun c => Nat.ltb (nat_of_ascii c) 128) (list_ascii_of_string s).

(** The values that [ToString] prints, and whose leading white space
    [parseInt] skips, as the language does: the numbers are safe integers
    and the strings ASCII text, inside arrays too (an object prints without
    its contents). *)
Fixpoint plain (v : value) : bool :=
  match v with
  | VNum n => is_safe_integer n
  | VStr s => is_ascii s
  | VArr xs => forallb plain xs
  | _ => true
  end.


End JS.

Import JS.

(* ===================================================================== *)
(** ** Process state, outside world and effects *)
(* ===================================================================== *)

Module Runtime.

(** A queue message as the poller reads it. *)
Record Message : Type := { Body : string; ReceiptHandle : string }.

(** What a call that leaves the process resolves to.  A response of the
    queue service may carry [Messages]; the signer answers with a URL. *)
Record reply : Type := { Messages : option (list Message); Url : string }.

Inductive outcome : Type :=
| Returns (r : reply)
| Throws (e : exn).

Record SQSClient : Type :=
  { sqs_region : option string;
    sqs_accessKeyId : option string;
    sqs_secretAccessKey : option string }.

Record S3Client : Type :=
  { s3_region : option string;
    s3_accessKeyId : option string;
    s3_secretAccessKey : option string }.

Record MessageAttribute : Type := { DataType : string; StringValue : value }.

Inductive command : Type :=
| SendMessageCommand (QueueUrl : option string) (MessageBody : string)
    (Topic : MessageAttribute)
| ReceiveMessageCommand (QueueUrl : option string) (MaxNumberOfMessages : Z)
    (WaitTimeSeconds : Z) (MessageAttributeNames : list string)
| DeleteMessageCommand (QueueUrl : option string) (receiptHandle : string).

(** Observable effects. *)
Inductive event : Type :=
| ConsoleLog (line : string)
| ConsoleError (line : string) (err : option exn)
| SqsSend (client : SQSClient) (cmd : command)          (* client.send(cmd) *)
| IoEmit (name : string) (payload : value)              (* io.emit(name, payload) *)
| SetTimeout (ms : Z)                                   (* an awaited timer *)
| Presign (client : S3Client) (Bucket : option string) (Key : value)
    (expiresIn : jsnum).                                (* getSignedUrl(...) *)

Record world : Type :=
  { env : gmap string string;        (* process.env *)
    sqsClient : option SQSClient;    (* let sqsClient = null, sqsConfig.js *)
    s3Client : option S3Client;      (* let s3Client = null, s3Config.js *)
    now : Z;                         (* Date.now(), milliseconds *)
    outside : nat -> outcome;        (* how the k-th outgoing call completes *)
    calls : nat;                     (* outgoing calls made so far *)
    trace : list event }.            (* effects so far, oldest first *)

Inductive completion (A : Type) : Type :=
| Normal (a : A)
| Abrupt (e : exn).
Arguments Normal {A} a.
Arguments Abrupt {A} e.

Definition M (A : Type) : Type := world -> completion A * world.

Definition ret {A} (a : A) : M A := fun w => (Normal a, w).

Definition bind {A B} (m : M A) (k : A -> M B) : M B :=
  fun w =>
    match m w with
    | (Normal a, w') => k a w'
    | (Abrupt e, w') => (Abrupt e, w')
    end.

Definition throw {A} (e : exn) : M A := fun w => (Abrupt e, w).

(** [try { body } catch (e) { handler e }] *)
Definition try_catch {A} (body : M A) (handler : exn -> M A) : M A :=
  fun w =>
    match body w with
    | (Normal a, w') => (Normal a, w')
    | (Abrupt e, w') => handler e w'
    end.

Notation "'let!' x ':=' m 'in' k" := (bind m (fun x => k))
  (at level 10, x pattern, m at level 100, k at level 200).

Definition read {A} (f : world -> A) : M A := fun w => (Normal (f w), w).

(** A partial operation of the language: [None] is the exception [e]. *)
Definition or_throw {A} (e : exn) (o : option A) : M A :=
  match o with Some a => ret a | None => throw e end.

Definition lift {A} (c : completion A) : M A := fun w => (c, w).

Definition record (e : event) (w : world) : world :=
  {| env := env w; sqsClient := sqsClient w; s3Client := s3Client w;
     now := now w; outside := outside w; calls := calls w;
     trace := trace w ++ [e] |}.

Definition emit_event (e : event) : M unit := fun w => (Normal tt, record e w).

Definition console_log (line : string) : M unit := emit_event (ConsoleLog line).

Definition console_error (line : string) (err : option exn) : M unit :=
  emit_event (ConsoleError line err).

Definition with_sqsClient (c : SQSClient) (w : world) : world :=
  {| env := env w; sqsClient := Some c; s3Client := s3Client w;
     now := now w; outside := outside w; calls := calls w;
     trace := trace w |}.

Definition with_s3Client (c : S3Client) (w : world) : world :=
  {| env := env w; sqsClient := sqsClient w; s3Client := Some c;
     now := now w; outside := outside w; calls := calls w;
     trace := trace w |}.

Definition set_sqsClient (c : SQSClient) : M unit :=
  fun w => (Normal tt, with_sqsClient c w).

Definition set_s3Client (c : S3Client) : M unit :=
  fun w => (Normal tt, with_s3Client c w).

(** The world after the outgoing call [e]. *)
Definition called (e : event) (w : world) : world :=
  {| env := env w; sqsClient := sqsClient w; s3Client := s3Client w;
     now := now w; outside := outside w; calls := S (calls w);
     trace := trace w ++ [e] |}.

(** A call that leaves the process: the event is recorded, the world
    answers, and a rejection surfaces as an exception at the [await]. *)
Definition call_outside (e : event) : M reply :=
  fun w =>
    match outside w (calls w) with
    | Returns r => (Normal r, called e w)
    | Throws x => (Abrupt x, called e w)
    end.

(** The world [ms] milliseconds later. *)
Definition slept (ms : Z) (w : world) : world :=
  {| env := env w; sqsClient := sqsClient w; s3Client := s3Client w;
     now := now w + ms; outside := outside w; calls := calls w;
     trace := trace w ++ [SetTimeout ms] |}.

(** [await new Promise(resolve => setTimeout(resolve, ms))] *)
Definition sleep (ms : Z) : M unit := fun w => (Normal tt, slept ms w).

(** [for (const x of xs) body] *)
Fixpoint for_of {A} (xs : list A) (body : A -> M unit) : M unit :=
  match xs with
  | [] => ret tt
  | x :: rest => let! _ := body x in for_of rest body
  end.

(** [while (true) body] has no normal exit: after [fuel] rounds the loop is
    still [Looping], unless a round threw. *)
Inductive loop : Type := Looping.

Fixpoint while_true (fuel : nat) (body : M unit) : M loop :=
  match fuel with
  | O => ret Looping
  | S n => let! _ := body in while_true n body
  end.

(** The built-in objects whose results the program only passes along. *)
Class Host : Type :=
  { JSON_parse : string -> option value;      (* None: SyntaxError *)
    JSON_stringify : value -> string;
    Date_toISOString : Z -> string }.

(** [!process.env[name]] *)
Definition env_missing (e : gmap string string) (name : string) : bool :=
  match e !! name with
  | None => true
  | Some s => is_empty s
  end.

(** [xs.join(', ')] *)
Fixpoint join_comma (xs : list string) : string :=
  match xs with
  | [] => ""
  | [x] => x
  | x :: rest => x ++ ", " ++ join_comma rest
  end.

End Runtime.

Import Runtime.

(* ===================================================================== *)
(** ** sqsConfig.js *)
(* ===================================================================== *)

Module SqsConfig.

Definition requiredEnvVars : list string :=
  ["AWS_REGION"; "AWS_ACCESS_KEY_ID"; "AWS_SECRET_ACCESS_KEY"; "AWS_SQS_QUEUE_URL"].

Definition missingVars (e : gmap string string) : list string :=
  List.filter (env_missing e) requiredEnvVars.

Definition errorMsg (e : gmap string string) : string :=
  "Missing required AWS SQS environment variables: " ++ join_comma (missingVars e).

Arguments missingVars : simpl never.
Arguments errorMsg : simpl never.

(** [new SQSClient({ region, credentials })] *)
Definition new_SQSClient (e : gmap string string) : SQSClient :=
  {| sqs_region := e !! "AWS_REGION";
     sqs_accessKeyId := e !! "AWS_ACCESS_KEY_ID";
     sqs_secretAccessKey := e !! "AWS_SECRET_ACCESS_KEY" |}.

Definition getSQSClient : M SQSClient :=
  let! cached := read sqsClient in
  match cached with
  | Some client => ret client
  | None =>
      let! e := read env in
      if (0 <? length (missingVars e))%nat then
        let! _ := console_error ("❌ " ++ errorMsg e) None in
        throw (Error (errorMsg e))
      else
        let client := new_SQSClient e in
        let! _ := set_sqsClient client in
        let! _ := console_log "✅ SQS Client initialized successfully" in
        ret client
  end.

(** The default of the parameter [topic = 'general']: it applies to
    [undefined] only. *)
Definition topic_or_general (topic : value) : value :=
  match topic with
  | VUndefined => VStr "general"
  | _ => topic
  end.

Section WithHost.
Context {host : Host}.

(** The object [{...data, topic, timestamp: new Date().toISOString()}]. *)
Definition envelope (data : list (string * value)) (topic : value) (t : Z)
  : value :=
  VObj (obj_set "timestamp" (VStr (Date_toISOString t)) (obj_set "topic" topic data)).

Definition sendSQSMessage (data : list (string * value)) (topic : value)
  : M reply :=
  let topic := topic_or_general topic in
  let! client := getSQSClient in
  let! t := read now in
  let body := JSON_stringify (envelope data topic t) in
  let! queueUrl := read (fun w => env w !! "AWS_SQS_QUEUE_URL") in
  let command :=
    SendMessageCommand queueUrl body
      {| DataType := "String"; StringValue := topic |} in
  call_outside (SqsSend client command).

End WithHost.

Definition receiveSQSMessages (maxMessages : Z) : M (list Message) :=
  let! client := getSQSClient in
  let! queueUrl := read (fun w => env w !! "AWS_SQS_QUEUE_URL") in
  let command := ReceiveMessageCommand queueUrl maxMessages 20 ["All"] in
  let! response := call_outside (SqsSend client command) in
  ret (default [] (Messages response)).

Definition deleteSQSMessage (receiptHandle : string) : M reply :=
  let! client := getSQSClient in
  let! queueUrl := read (fun w => env w !! "AWS_SQS_QUEUE_URL") in
  let command := DeleteMessageCommand queueUrl receiptHandle in
  call_outside (SqsSend client command).

End SqsConfig.

(* ===================================================================== *)
(** ** s3Config.js *)
(* ===================================================================== *)

Module S3Config.

Definition requiredEnvVars : list string :=
  ["AWS_REGION"; "AWS_ACCESS_KEY_ID"; "AWS_SECRET_ACCESS_KEY"; "AWS_S3_BUCKET_NAME"].

Definition missingVars (e : gmap string string) : list string :=
  List.filter (env_missing e) requiredEnvVars.

Definition errorMsg (e : gmap string string) : string :=
  "Missing required AWS environment variables: " ++ join_comma (missingVars e).

Arguments missingVars : simpl never.
Arguments errorMsg : simpl never.

(** [new S3Client({ region, credentials })] *)
Definition new_S3Client (e : gmap string string) : S3Client :=
  {| s3_region := e !! "AWS_REGION";
     s3_accessKeyId := e !! "AWS_ACCESS_KEY_ID";
     s3_secretAccessKey := e !! "AWS_SECRET_ACCESS_KEY" |}.

Definition getS3Client : M S3Client :=
  let! cached := read s3Client in
  match cached with
  | Some client => ret client
  | None =>
      let! e := read env in
      if (0 <? length (missingVars e))%nat then
        let! _ := console_error ("❌ " ++ errorMsg e) None in
        throw (Error (errorMsg e))
      else
        let client := new_S3Client e in
        let! _ := set_s3Client client in
        let! _ := console_log "✅ S3 Client initialized successfully" in
        ret client
  end.

Definition getSignedUrlForFile (key : value) (expiresIn : jsnum) : M string :=
  let! bucket := read (fun w => env w !! "AWS_S3_BUCKET_NAME") in
  let! client := getS3Client in
  let! signed := call_outside (Presign client bucket key expiresIn) in
  ret (Url signed).

(** [getCloudFrontUrl(key)]; the result [None] is [null].  Only a string
    has a [replace] method: any other key makes the call throw, once past
    the domain check. *)
Definition getCloudFrontUrl (e : gmap string string) (key : value)
  : completion (option string) :=
  match e !! "AWS_CLOUDFRONT_DOMAIN" with
  | None => Normal None
  | Some domain =>
      if is_empty domain then Normal None
      else
        let cleanDomain := strip_trailing_slash domain in
        match key with
        | VStr k =>
            let cleanKey := strip_leading_slash k in
            Normal (Some ("https://" ++ cleanDomain ++ "/" ++ cleanKey))
        | _ => Abrupt TypeError
        end
  end.

End S3Config.

(* ===================================================================== *)
(** ** uploadRoutes.js *)
(* ===================================================================== *)

Module UploadRoutes.

(** What the route answers: [res.status(...).json(...)]. *)
Inductive response : Type :=
| SignedUrl (fileKey : value) (signedUrl : string) (cloudFrontUrl : option string)
    (expiresIn : Z) (expiresAt : string)                  (* 200 *)
| BadRequest (error : string)                              (* 400 *)
| ServerError (error : string) (cause : exn).              (* 500 *)

Definition status (r : response) : Z :=
  match r with
  | SignedUrl _ _ _ _ _ => 200
  | BadRequest _ => 400
  | ServerError _ _ => 500
  end.

Definition maxExpiry : Z := 7 * 24 * 60 * 60.

(** The default of the pattern [expiresIn = 3600]. *)
Definition expiresIn_or_default (v : value) : value :=
  match v with
  | VUndefined => VNum 3600
  | _ => v
  end.

Section WithHost.
Context {host : Host}.

(** [router.post('/get-signed-url', ...)] applied to [req.body]. *)
Definition post_get_signed_url (body : value) : M response :=
  try_catch
    (let! fileKey := or_throw TypeError (get_field body "fileKey") in
     let! expiresIn := or_throw TypeError (get_field body "expiresIn") in
     let expiresIn := expiresIn_or_default expiresIn in
     if negb (truthy fileKey) then ret (BadRequest "fileKey is required")
     else
       let! parsed := or_throw TypeError (parseInt expiresIn) in
       let expiry := Math_min parsed (Int maxExpiry) in
       let! signedUrl := S3Config.getSignedUrlForFile fileKey expiry in
       let! e := read env in
       let! cloudFrontUrl := lift (S3Config.getCloudFrontUrl e fileKey) in
       let! t := read now in
       let! expiresAt :=
         or_throw RangeError (time_clip (num_add (Int t) (num_mul expiry (Int 1000)))) in
       match expiry with
       | Int seconds =>
           ret (SignedUrl fileKey signedUrl cloudFrontUrl seconds
                  (Date_toISOString expiresAt))
       | NaN => throw RangeError
       end)
    (fun error =>
       let! _ := console_error "Signed URL error:" (Some error) in
       ret (ServerError "Failed to generate signed URL" error)).

End WithHost.

End UploadRoutes.

(* ===================================================================== *)
(** ** index.js *)
(* ===================================================================== *)

Module Index.

Import SqsConfig.

Section WithHost.
Context {host : Host}.

(** The body of [for (const message of messages)]. *)
Definition on_message (message : Message) : M unit :=
  try_catch
    (let! body := or_throw SyntaxError (JSON_parse (Body message)) in
     let! topic := or_throw TypeError (get_field body "topic") in
     let! shown := or_throw TypeError (ToString topic) in
     let! _ :=
       console_log
         ("📩 New SQS Message: [" ++ shown ++ "] " ++ JSON_stringify body) in
     let! _ := call_outside (IoEmit "message" body) in
     let! _ := deleteSQSMessage (ReceiptHandle message) in
     ret tt)
    (fun parseErr => console_error "Failed to parse SQS message:" (Some parseErr)).

(** The body of [while (true)]. *)
Definition poll_round : M unit :=
  try_catch
    (let! messages := receiveSQSMessages 5 in
     for_of messages on_message)
    (fun error =>
       let! _ := console_error "SQS Polling Error:" (Some error) in
       sleep 5000).

Definition startSQSPolling (fuel : nat) : M loop :=
  let! _ := console_log "📡 Starting SQS polling loop..." in
  while_true fuel poll_round.

(** [socket.on('send-message', async (data) => ...)] for the socket [socket_id]. *)
Definition on_send_message (socket_id : string) (data : value) : M unit :=
  try_catch
    (let! text := or_throw TypeError (get_field data "text") in
     let! topic := or_throw TypeError (get_field data "topic") in
     let! shownTopic := or_throw TypeError (ToString topic) in
     let! shownText := or_throw TypeError (ToString text) in
     let! _ :=
       console_log
         ("📡 Sending message to SQS: [" ++ shownTopic ++ "] " ++ shownText) in
     let! _ := sendSQSMessage [("text", text); ("senderId", VStr socket_id)] topic in
     ret tt)
    (fun error => console_error "Socket send-message error:" (Some error)).

End WithHost.

End Index.

(* ===================================================================== *)
(** ** Reading runs *)
(* ===================================================================== *)

Module Observe.

Import SqsConfig.

(** The queue client can be handed out: it is cached, or every required
    variable is set. *)
Definition ready (w : world) : bool :=
  match sqsClient w with
  | Some _ => true
  | None => Nat.eqb (length (missingVars (env w))) 0
  end.

(** The client a ready process works with. *)
Definition the_client (w : world) : SQSClient :=
  match sqsClient w with
  | Some client => client
  | None => new_SQSClient (env w)
  end.

(** What the first hand-out logs. *)
Definition init_events (w : world) : list event :=
  match sqsClient w with
  | Some _ => []
  | None => [ConsoleLog "✅ SQS Client initialized successfully"]
  end.

(** The line a failed construction prints. *)
Definition config_failure (e : gmap string string) : event :=
  ConsoleError ("❌ " ++ errorMsg e) None.

Definition is_config_failure (ev : event) : bool :=
  match ev with
  | ConsoleError line None =>
      String.prefix "❌ Missing required AWS SQS environment variables: " line
  | _ => false
  end.

Definition is_publish (ev : event) : bool :=
  match ev with IoEmit _ _ => true | _ => false end.

Definition is_delete (ev : event) : bool :=
  match ev with SqsSend _ (DeleteMessageCommand _ _) => true | _ => false end.

Definition is_sleep (ev : event) : bool :=
  match ev with SetTimeout _ => true | _ => false end.

Definition count (p : event -> bool) (t : list event) : nat :=
  length (List.filter p t).

(** The world after [n] rounds of a step, the first round first. *)
Fixpoint rounds (n : nat) (step : world -> world) (w : world) : world :=
  match n with
  | O => w
  | S k => rounds k step (step w)
  end.

(** The world after the client has been handed out. *)
Definition connect (w : world) : world :=
  match sqsClient w with
  | Some _ => w
  | None =>
      record (ConsoleLog "✅ SQS Client initialized successfully")
        (with_sqsClient (new_SQSClient (env w)) w)
  end.

(** What one round of the loop prints when the client cannot be built. *)
Definition failed_round_events (e : gmap string string) : list event :=
  [config_failure e;
   ConsoleError "SQS Polling Error:" (Some (Error (errorMsg e)));
   SetTimeout 5000].

(** The send request for [data] under [topic], made in world [w]. *)
Definition send_request {host : Host} (data : list (string * value))
    (topic : value) (w : world) : event :=
  SqsSend (the_client w)
    (SendMessageCommand (env w !! "AWS_SQS_QUEUE_URL")
       (JSON_stringify (envelope data (topic_or_general topic) (now w)))
       {| DataType := "String"; StringValue := topic_or_general topic |}).

(** The own properties of an object. *)
Definition props_of (v : value) : list (string * value) :=
  match v with
  | VObj props => props
  | _ => []
  end.

(** The receive request of a round. *)
Definition receive_request (w : world) : event :=
  SqsSend (the_client w)
    (ReceiveMessageCommand (env w !! "AWS_SQS_QUEUE_URL") 5 20 ["All"]).

(** The world after a round whose receive failed with [e] in world [w1]. *)
Definition backed_off (e : exn) (w1 : world) : world :=
  slept 5000 (record (ConsoleError "SQS Polling Error:" (Some e)) w1).

(** The world after a message has been handled. *)
Definition handled {host : Host} (w : world) (m : Message) : world :=
  snd (Index.on_message m w).

(** The events that handling [m] may add: console lines, a broadcast of the
    parsed body under the name [message], a delete of the message's own
    receipt handle; never a timer, a receive or a send. *)
Definition event_of_message {host : Host} (m : Message) (ev : event) : Prop :=
  match ev with
  | ConsoleLog _ | ConsoleError _ _ => True
  | IoEmit name payload => name = "message" /\ JSON_parse (Body m) = Some payload
  | SqsSend _ (DeleteMessageCommand _ rh) => rh = ReceiptHandle m
  | _ => False
  end.

(** The log line of a received message can be built: [body.topic] can be
    read and converted to a string. *)
Definition showable (body : value) : bool :=
  match get_field body "topic" with
  | Some topic => match ToString topic with Some _ => true | None => false end
  | None => false
  end.

End Observe.

Import Observe.

(* ===================================================================== *)
(** ** Sample hosts and worlds *)
(* ===================================================================== *)

Module Demo.

Definition dq : string := String (ascii_of_nat 34) EmptyString.

Definition quoted (s : string) : string := dq ++ s ++ dq.

(** The text [{"text":"hi","topic":"t1"}]. *)
Definition hi_body : string :=
  "{" ++ quoted "text" ++ ":" ++ quoted "hi" ++ ","
      ++ quoted "topic" ++ ":" ++ quoted "t1" ++ "}".

(** A parser that knows the texts of the examples and answers on them as
    [JSON.parse] does; every other text is rejected, which is right for
    [not-json] and is not looked at otherwise. *)
Definition parse_known (s : string) : option value :=
  if String.eqb s "null" then Some VNull
  else if String.eqb s hi_body
       then Some (VObj [("text", VStr "hi"); ("topic", VStr "t1")])
       else None.

(** A serializer for data without characters that need escaping: like
    [JSON.stringify], it leaves out properties whose value is [undefined]
    and prints [undefined] array elements as [null]. *)
Fixpoint stringify (v : value) : string :=
  match v with
  | VUndefined | VNull => "null"
  | VBool true => "true"
  | VBool false => "false"
  | VNum n => pretty n
  | VStr s => quoted s
  | VArr xs =>
      "[" ++ (fix elems (l : list value) : string :=
                match l with
                | [] => ""
                | [x] => stringify x
                | x :: rest => stringify x ++ "," ++ elems rest
                end) xs ++ "]"
  | VObj props =>
      "{" ++ (fix members (l : list (string * value)) (first : bool) : string :=
                match l with
                | [] => ""
                | (_, VUndefined) :: rest => members rest first
                | (k, x) :: rest =>
                    (if first then "" else ",") ++ quoted k ++ ":" ++ stringify x
                    ++ members rest false
                end) props true ++ "}"
  end.

(** Times are shown as their millisecond count. *)
Definition host : Host :=
  {| JSON_parse := parse_known;
     JSON_stringify := stringify;
     Date_toISOString := fun t => pretty t ++ "ms" |}.

Definition configured : gmap string string :=
  <["AWS_REGION" := "us-east-1"]>
  (<["AWS_ACCESS_KEY_ID" := "AKIAEXAMPLE"]>
  (<["AWS_SECRET_ACCESS_KEY" := "secret"]>
  (<["AWS_SQS_QUEUE_URL" := "https://sqs.us-east-1.amazonaws.com/1/my-app-messages"]>
  (<["AWS_S3_BUCKET_NAME" := "my-bucket"]>
  (<["AWS_CLOUDFRONT_DOMAIN" := "d123.cloudfront.net/"]> ∅))))).

Definition empty_reply : reply := {| Messages := None; Url := "" |}.

(** A process that has just started, in the environment [e], facing the
    outside [o]. *)
Definition start (e : gmap string string) (o : nat -> outcome) : world :=
  {| env := e; sqsClient := None; s3Client := None; now := 1700000000000;
     outside := o; calls := 0; trace := [] |}.

(** An outside where every call succeeds with nothing to report. *)
Definition quiet : nat -> outcome := fun _ => Returns empty_reply.

(** The region is not set. *)
Definition no_region : gmap string string := delete "AWS_REGION" configured.

End Demo.

(* ===================================================================== *)
(** ** index.js: the HTTP route that sends a message *)
(* ===================================================================== *)

Module IndexRoutes.

Import SqsConfig.

(** What [POST /api/messages] answers. *)
Inductive response : Type :=
| Queued                     (* 200 { success: true, message: 'Message queued' } *)
| TextRequired               (* 400 { error: 'Text is required' } *)
| Failed (cause : exn).      (* 500 { error: cause.message } *)

Definition status (r : response) : Z :=
  match r with
  | Queued => 200
  | TextRequired => 400
  | Failed _ => 500
  end.

Section WithHost.
Context {host : Host}.

(** [app.post('/api/messages', ...)] applied to [req.body]. *)
Definition post_api_messages (body : value) : M response :=
  try_catch
    (let! text := or_throw TypeError (get_field body "text") in
     let! topic := or_throw TypeError (get_field body "topic") in
     if negb (truthy text) then ret TextRequired
     else
       let! _ := sendSQSMessage [("text", text)] topic in
       ret Queued)
    (fun error => ret (Failed error)).

End WithHost.

End IndexRoutes.

(* ===================================================================== *)
(** ** s3Config.js and uploadRoutes.js: storing and fetching objects *)
(* ===================================================================== *)

Module Uploads.

(** [req.file] as the upload middleware provides it. *)
Record File : Type := { buffer : string; originalname : string; mimetype : string }.

(** What the program reads of a fetched object. *)
Record S3Object : Type :=
  { ContentType : option string;
    ContentLength : option Z;
    ObjectBody : string }.

Inductive s3_command : Type :=
| PutObjectCommand (Bucket : option string) (Key : string) (Body : string)
    (contentType : string)
| GetObjectCommand (Bucket : option string) (Key : string).

(** The effects of these routes: those of the rest of the program, and the
    requests sent to the object store. *)
Inductive uevent : Type :=
| Old (e : event)
| S3Send (client : S3Client) (cmd : s3_command).     (* client.send(cmd) *)

(** The process together with what the object store holds in its answers
    ([objects k] is what the k-th outgoing call delivers when it is a fetch
    that succeeds) and the effects so far, oldest first. *)
Record ustate : Type :=
  { base : world;
    objects : nat -> S3Object;
    log : list uevent }.

Definition MU (A : Type) : Type := ustate -> completion A * ustate.

Definition uret {A} (a : A) : MU A := fun u => (Normal a, u).

Definition ubind {A B} (m : MU A) (k : A -> MU B) : MU B :=
  fun u =>
    match m u with
    | (Normal a, u') => k a u'
    | (Abrupt e, u') => (Abrupt e, u')
    end.

Definition utry_catch {A} (body : MU A) (handler : exn -> MU A) : MU A :=
  fun u =>
    match body u with
    | (Normal a, u') => (Normal a, u')
    | (Abrupt e, u') => handler e u'
    end.

Notation "'let*' x ':=' m 'in' k" := (ubind m (fun x => k))
  (at level 10, x pattern, m at level 100, k at level 200).

(** A computation of the rest of the program, run here: the events it adds
    to the trace are added to the log. *)
Definition lift_base {A} (m : M A) : MU A :=
  fun u =>
    let '(r, w') := m (base u) in
    (r, {| base := w'; objects := objects u;
           log := log u ++ map Old (drop (length (trace (base u))) (trace w')) |}).

(** The world after an outgoing call that the trace does not show. *)
Definition answered (w : world) : world :=
  {| env := env w; sqsClient := sqsClient w; s3Client := s3Client w;
     now := now w; outside := outside w; calls := S (calls w);
     trace := trace w |}.

Definition sent (client : S3Client) (cmd : s3_command) (u : ustate) : ustate :=
  {| base := answered (base u); objects := objects u;
     log := log u ++ [S3Send client cmd] |}.

(** [await client.send(cmd)] on the S3 client. *)
Definition s3_send (client : S3Client) (cmd : s3_command) : MU S3Object :=
  fun u =>
    match outside (base u) (calls (base u)) with
    | Returns _ => (Normal (objects u (calls (base u))), sent client cmd u)
    | Throws e => (Abrupt e, sent client cmd u)
    end.

(** [error.name] *)
Definition exn_name (e : exn) : string :=
  match e with
  | Error _ => "Error"
  | TypeError => "TypeError"
  | SyntaxError => "SyntaxError"
  | RangeError => "RangeError"
  | ServiceError name => name
  end.

(** The key [`uploads/${Date.now()}-${fileName}`]. *)
Definition upload_key (t : Z) (fileName : string) : string :=
  "uploads/" ++ pretty t ++ "-" ++ fileName.

Definition uploadToS3 (fileBuffer fileName mimeType : string) : MU string :=
  let* t := lift_base (read now) in
  let key := upload_key t fileName in
  let* bucket := lift_base (read (fun w => env w !! "AWS_S3_BUCKET_NAME")) in
  let command := PutObjectCommand bucket key fileBuffer mimeType in
  let* client := lift_base S3Config.getS3Client in
  let* _ := s3_send client command in
  uret key.

Definition getFileFromS3 (key : string) : MU S3Object :=
  let* bucket := lift_base (read (fun w => env w !! "AWS_S3_BUCKET_NAME")) in
  let command := GetObjectCommand bucket key in
  let* client := lift_base S3Config.getS3Client in
  let* response := s3_send client command in
  uret response.

(** What [POST /api/upload] answers. *)
Inductive upload_response : Type :=
| Uploaded (fileKey fileName : string) (fileSize : Z) (mimeType signedUrl : string)
    (cloudFrontUrl : option string) (expiresIn : Z)          (* 200 *)
| NoFile                                                      (* 400 *)
| UploadFailed (cause : exn).                                 (* 500 *)

(** [router.post('/upload', upload.single('file'), ...)] applied to
    [req.file]. *)
Definition post_upload (file : option File) : MU upload_response :=
  utry_catch
    (match file with
     | None => uret NoFile
     | Some f =>
         let* fileKey := uploadToS3 (buffer f) (originalname f) (mimetype f) in
         let* signedUrl :=
           lift_base (S3Config.getSignedUrlForFile (VStr fileKey) (Int 3600)) in
         let* e := lift_base (read env) in
         let* cloudFrontUrl := lift_base (lift (S3Config.getCloudFrontUrl e (VStr fileKey))) in
         uret (Uploaded fileKey (originalname f) (Z.of_nat (String.length (buffer f)))
                 (mimetype f) signedUrl cloudFrontUrl 3600)
     end)
    (fun error =>
       let* _ := lift_base (console_error "Upload error:" (Some error)) in
       uret (UploadFailed error)).

(** What the handler of [GET /api/files/:key] does with the response: it
    pipes the object into it after setting some headers itself
    ([contentType], [contentLength]: the arguments of its own
    [res.setHeader] calls, [None] where it makes no call), or it answers an
    error.  The headers that the HTTP layer adds when the response is sent
    are not part of this. *)
Inductive file_response : Type :=
| Streamed (contentType : option string) (contentLength : option Z)
    (content : string)                                        (* 200 *)
| KeyRequired                                                 (* 400 *)
| NotFound                                                    (* 404 *)
| FetchFailed (cause : exn).                                  (* 500 *)

(** The handler calls [res.setHeader] when the field is truthy. *)
Definition header_text (v : option string) : option string :=
  match v with
  | Some s => if is_empty s then None else Some s
  | None => None
  end.

Definition header_number (v : option Z) : option Z :=
  match v with
  | Some n => if n =? 0 then None else Some n
  | None => None
  end.

(** The handler of [GET /files/:key] applied to [req.params.key]. *)
Definition get_file (fileKey : string) : MU file_response :=
  utry_catch
    (if is_empty fileKey then uret KeyRequired
     else
       let* s3Response := getFileFromS3 fileKey in
       uret (Streamed (header_text (ContentType s3Response))
               (header_number (ContentLength s3Response))
               (ObjectBody s3Response)))
    (fun error =>
       let* _ := lift_base (console_error "File fetch error:" (Some error)) in
       if String.eqb (exn_name error) "NoSuchKey" then uret NotFound
       else uret (FetchFailed error)).

End Uploads.

(* ===================================================================== *)
(** ** Reading runs, continued *)
(* ===================================================================== *)

Module Measure.

Definition is_receive (ev : event) : bool :=
  match ev with SqsSend _ (ReceiveMessageCommand _ _ _ _) => true | _ => false end.

Definition is_client_built (ev : event) : bool :=
  match ev with
  | ConsoleLog line => String.eqb line "✅ SQS Client initialized successfully"
  | _ => false
  end.


(** The S3 client can be handed out. *)
Definition s3_ready (w : world) : bool :=
  match s3Client w with
  | Some _ => true
  | None => Nat.eqb (length (S3Config.missingVars (env w))) 0
  end.

Definition the_s3_client (w : world) : S3Client :=
  match s3Client w with
  | Some client => client
  | None => S3Config.new_S3Client (env w)
  end.

Definition s3_init_events (w : world) : list event :=
  match s3Client w with
  | Some _ => []
  | None => [ConsoleLog "✅ S3 Client initialized successfully"]
  end.

(** The world after the S3 client has been handed out. *)
Definition s3_connect (w : world) : world :=
  match s3Client w with
  | Some _ => w
  | None =>
      record (ConsoleLog "✅ S3 Client initialized successfully")
        (with_s3Client (S3Config.new_S3Client (env w)) w)
  end.

Definition s3_config_failure (e : gmap string string) : event :=
  ConsoleError ("❌ " ++ S3Config.errorMsg e) None.

Arguments s3_connect : simpl never.
Arguments s3_init_events : simpl never.

(** The state after the rest of the program has added the event [ev]. *)
Definition noted (ev : event) (u : Uploads.ustate) : Uploads.ustate :=
  {| Uploads.base := record ev (Uploads.base u);
     Uploads.objects := Uploads.objects u;
     Uploads.log := Uploads.log u ++ [Uploads.Old ev] |}.

(** The state after the S3 client has been handed out. *)
Definition s3_connected (u : Uploads.ustate) : Uploads.ustate :=
  {| Uploads.base := s3_connect (Uploads.base u);
     Uploads.objects := Uploads.objects u;
     Uploads.log := Uploads.log u ++ map Uploads.Old (s3_init_events (Uploads.base u)) |}.

(** The state after the signer has been called with [ev]. *)
Definition signed (ev : event) (u : Uploads.ustate) : Uploads.ustate :=
  {| Uploads.base := called ev (Uploads.base u);
     Uploads.objects := Uploads.objects u;
     Uploads.log := Uploads.log u ++ [Uploads.Old ev] |}.

(** The CloudFront URL of a key that does not start with a slash. *)
Definition cloudfront_of (e : gmap string string) (key : string) : option string :=
  match e !! "AWS_CLOUDFRONT_DOMAIN" with
  | None => None
  | Some domain =>
      if is_empty domain then None
      else Some ("https://" ++ strip_trailing_slash domain ++ "/" ++ key)
  end.

Definition is_put (ev : Uploads.uevent) : bool :=
  match ev with
  | Uploads.S3Send _ (Uploads.PutObjectCommand _ _ _ _) => true
  | _ => false
  end.

(** At no point of [evs] have more messages been deleted than published. *)
Definition deletes_follow_publishes (evs : list event) : Prop :=
  forall k, (count is_delete (take k evs) <= count is_publish (take k evs))%nat.

End Measure.

Import Measure.

(* ===================================================================== *)
(** ** Proof steps shared by the case analyses *)
(* ===================================================================== *)

(** Closes a goal of the shape "the new events are [evs], nothing else
    changed, and each of them is allowed" once the run has been unfolded. *)
Ltac settle_events :=
  eexists; split; [rewrite <- ?app_assoc; reflexivity|];
  split; [reflexivity|]; split; [reflexivity|]; split; [reflexivity|];
  cbn;
  let ev := fresh "ev" in
  let H := fresh "H" in
  intros ev H;
  repeat (destruct H as [<-|H];
          [first [exact I | split; reflexivity | reflexivity]|]);
  destruct H.


(** Closes "the new events are [evs], and along them deletes never outrun
    publishes" for an explicit [evs] of at most six events. *)
Ltac settle_balance :=
  eexists; split; [rewrite <- ?app_assoc; reflexivity|];
  let k := fresh "k" in
  intros k; do 6 (destruct k as [|k]; [cbn; lia|]); cbn; lia.

(** Closes "the new events are [evs], none of them a receive request or a
    client construction, and the cached client is unchanged". *)
Ltac settle_cached :=
  eexists; split; [rewrite <- ?app_assoc; reflexivity|];
  repeat split; try reflexivity; assumption.

(* ===================================================================== *)
(** ** Basic facts about the effects *)
(* ===================================================================== *)

Section Basics.

Lemma bind_normal {A B} (m : M A) (k : A -> M B) w a w' :
  m w = (Normal a, w') -> bind m k w = k a w'.
Proof. intros H. unfold bind. rewrite H. reflexivity. Qed.

Lemma bind_abrupt {A B} (m : M A) (k : A -> M B) w e w' :
  m w = (Abrupt e, w') -> bind m k w = (Abrupt e, w').
Proof. intros H. unfold bind. rewrite H. reflexivity. Qed.

Lemma try_catch_normal {A} (body : M A) h w a w' :
  body w = (Normal a, w') -> try_catch body h w = (Normal a, w').
Proof. intros H. unfold try_catch. rewrite H. reflexivity. Qed.

Lemma try_catch_abrupt {A} (body : M A) h w e w' :
  body w = (Abrupt e, w') -> try_catch body h w = h e w'.
Proof. intros H. unfold try_catch. rewrite H. reflexivity. Qed.

(** A loop whose body never throws runs every round. *)
Lemma while_true_total (body : M unit) :
  (forall w, fst (body w) = Normal tt) ->
  forall fuel w,
    while_true fuel body w = (Normal Looping, rounds fuel (fun w => snd (body w)) w).
Proof.
  intros Hbody fuel. induction fuel as [|n IH]; intros w.
  - reflexivity.
  - cbn [while_true rounds]. unfold bind.
    specialize (Hbody w). destruct (body w) as [r w1] eqn:E. cbn in Hbody. subst r.
    rewrite IH. reflexivity.
Qed.

End Basics.

(* ===================================================================== *)
(** ** The exact range of the built-ins *)
(* ===================================================================== *)

Section ExactRange.

Lemma is_ascii_cons (c : ascii) (s : string) :
  is_ascii (String c s) = (Nat.ltb (nat_of_ascii c) 128 && is_ascii s)%bool.
Proof. reflexivity. Qed.

Lemma is_ascii_app (s t : string) :
  is_ascii (s ++ t) = (is_ascii s && is_ascii t)%bool.
Proof.
  induction s as [|c s IH]; [reflexivity|].
  change (is_ascii (String c (s ++ t))
          = (is_ascii (String c s) && is_ascii t)%bool).
  rewrite !is_ascii_cons, IH, andb_assoc. reflexivity.
Qed.

Lemma pretty_N_char_ascii (x : N) : Nat.ltb (nat_of_ascii (pretty_N_char x)) 128 = true.
Proof.
  unfold pretty_N_char.
  repeat match goal with |- context [match ?y with _ => _ end] => destruct y end;
    reflexivity.
Qed.

Lemma pretty_N_go_ascii (x : N) :
  forall s, is_ascii s = true -> is_ascii (pretty_N_go x s) = true.
Proof.
  induction (N.lt_wf_0 x) as [x _ IH]. intros s Hs.
  destruct (decide (0 < x)%N) as [Hx|Hx].
  - rewrite pretty_N_go_step by exact Hx.
    apply IH; [apply N.div_lt; lia|].
    rewrite is_ascii_cons, pretty_N_char_ascii, Hs. reflexivity.
  - assert (x = 0%N) as -> by lia. rewrite pretty_N_go_0. exact Hs.
Qed.

Lemma pretty_Z_ascii (n : Z) : is_ascii (pretty n) = true.
Proof.
  assert (HN : forall x : N, is_ascii (pretty x) = true).
  { intros x. unfold pretty, pretty_N. destruct (decide (x = 0%N)); [reflexivity|].
    apply pretty_N_go_ascii. reflexivity. }
  destruct n as [|p|p]; [reflexivity | apply (HN (Npos p)) |].
  change (pretty (Z.neg p)) with ("-" +:+ pretty (Npos p)).
  change (is_ascii (String "-" (pretty (N.pos p))) = true).
  rewrite is_ascii_cons, (HN (Npos p)). reflexivity.
Qed.

(** Induction on values, with the elements of an array as smaller
    values. *)
Lemma value_elements_ind (P : value -> Prop) :
  P VUndefined -> P VNull -> (forall b, P (VBool b)) -> (forall n, P (VNum n)) ->
  (forall s, P (VStr s)) ->
  (forall xs, Forall P xs -> P (VArr xs)) ->
  (forall props, P (VObj props)) ->
  forall v, P v.
Proof.
  intros Hu Hn Hb Hz Hs Ha Ho.
  fix IH 1. intros [| |b|n|s|xs|props];
    [exact Hu | exact Hn | apply Hb | apply Hz | apply Hs | | apply Ho].
  apply Ha. induction xs as [|x rest IHxs]; constructor; [apply IH | exact IHxs].
Qed.

(** On plain values [ToString] yields ASCII text: the white space that
    [parseInt] may have to skip there is the ASCII one. *)
Lemma ToString_plain_is_ascii (v : value) :
  forall s, plain v = true -> ToString v = Some s -> is_ascii s = true.
Proof.
  induction v as [| |b|n|t|xs IH|props] using value_elements_ind;
    intros s Hp Hs; cbn [ToString] in Hs.
  - inversion Hs; reflexivity.
  - inversion Hs; reflexivity.
  - destruct b; inversion Hs; reflexivity.
  - inversion Hs; subst. apply pretty_Z_ascii.
  - inversion Hs; subst. exact Hp.
  - cbn [plain] in Hp. revert s Hp Hs.
    induction IH as [|x rest Hx _ IHxs]; intros s Hp Hs.
    + inversion Hs; reflexivity.
    + cbn [forallb] in Hp. apply andb_prop in Hp as [Hpx Hrest].
      assert (Hsx : forall sx,
                 match x with VUndefined | VNull => Some "" | _ => ToString x end = Some sx ->
                 is_ascii sx = true).
      { intros sx Hsx. destruct x; try (inversion Hsx; reflexivity);
          exact (Hx sx Hpx Hsx). }
      destruct (match x with VUndefined | VNull => Some "" | _ => ToString x end) as [sx|];
        [|discriminate].
      specialize (Hsx sx eq_refl).
      destruct rest as [|y rest'].
      * inversion Hs; subst. exact Hsx.
      * match type of Hs with
        | match ?j with _ => _ end = _ => destruct j as [t|] eqn:Hj; [|discriminate]
        end.
        inversion Hs; subst.
        rewrite !is_ascii_app, Hsx, (IHxs t Hrest eq_refl). reflexivity.
  - destruct (own_key "toString" props); inversion Hs; reflexivity.
Qed.

End ExactRange.

(* ===================================================================== *)
(** ** The queue client *)
(* ===================================================================== *)

Section Client.

Lemma connect_frame w :
  env (connect w) = env w /\ now (connect w) = now w /\
  outside (connect w) = outside w /\ calls (connect w) = calls w /\
  s3Client (connect w) = s3Client w.
Proof. unfold connect. destruct (sqsClient w); cbn; auto. Qed.

Lemma connect_trace w : trace (connect w) = (trace w ++ init_events w)%list.
Proof.
  unfold connect, init_events. destruct (sqsClient w); cbn.
  - symmetry. apply app_nil_r.
  - reflexivity.
Qed.

Lemma connect_client w : sqsClient (connect w) = Some (the_client w).
Proof.
  unfold connect, the_client. destruct (sqsClient w) eqn:E; cbn; auto.
Qed.

Lemma getSQSClient_ready w :
  ready w = true ->
  SqsConfig.getSQSClient w = (Normal (the_client w), connect w).
Proof.
  unfold ready, SqsConfig.getSQSClient, the_client, connect, bind, read.
  destruct (sqsClient w) as [c|] eqn:E; intros H.
  - reflexivity.
  - destruct (length (SqsConfig.missingVars (env w))); [reflexivity | discriminate].
Qed.

Lemma getSQSClient_missing w :
  ready w = false ->
  SqsConfig.getSQSClient w
  = (Abrupt (Error (SqsConfig.errorMsg (env w))), record (config_failure (env w)) w).
Proof.
  unfold ready, SqsConfig.getSQSClient, bind, read.
  destruct (sqsClient w) as [c|] eqn:E; intros H; [discriminate|].
  destruct (length (SqsConfig.missingVars (env w))); [discriminate | reflexivity].
Qed.

(** A required variable is missing exactly when the process is not ready
    and holds no client. *)
Lemma not_ready_iff w :
  ready w = false <->
  sqsClient w = None /\ exists name, In name SqsConfig.requiredEnvVars /\ env_missing (env w) name = true.
Proof.
  unfold ready. destruct (sqsClient w) as [c|].
  - split; [discriminate | intros [H _]; discriminate].
  - split.
    + intros H. split; [reflexivity|].
      destruct (SqsConfig.missingVars (env w)) as [|name rest] eqn:E; [discriminate|].
      exists name.
      assert (Hin : In name (SqsConfig.missingVars (env w))) by (rewrite E; left; reflexivity).
      unfold SqsConfig.missingVars in Hin. apply filter_In in Hin. exact Hin.
    + intros [_ [name [Hin Hmiss]]].
      assert (Hin' : In name (SqsConfig.missingVars (env w))).
      { unfold SqsConfig.missingVars. apply filter_In. split; assumption. }
      destruct (SqsConfig.missingVars (env w)); [destruct Hin' | reflexivity].
Qed.

Lemma receive_missing n w :
  ready w = false ->
  SqsConfig.receiveSQSMessages n w
  = (Abrupt (Error (SqsConfig.errorMsg (env w))), record (config_failure (env w)) w).
Proof.
  intros H. unfold SqsConfig.receiveSQSMessages.
  apply bind_abrupt. apply getSQSClient_missing. exact H.
Qed.

Lemma receive_ready n w :
  ready w = true ->
  SqsConfig.receiveSQSMessages n w
  = let sent :=
      called (SqsSend (the_client w)
                (ReceiveMessageCommand (env w !! "AWS_SQS_QUEUE_URL") n 20 ["All"]))
             (connect w) in
    match outside w (calls w) with
    | Returns r => (Normal (default [] (Messages r)), sent)
    | Throws e => (Abrupt e, sent)
    end.
Proof.
  intros H. unfold SqsConfig.receiveSQSMessages.
  rewrite (bind_normal _ _ _ _ _ (getSQSClient_ready w H)).
  destruct (connect_frame w) as (He & _ & Ho & Hc & _).
  unfold bind, read, call_outside, ret. rewrite He, Ho, Hc.
  destruct (outside w (calls w)); reflexivity.
Qed.

Lemma delete_cached rh c w :
  sqsClient w = Some c ->
  SqsConfig.deleteSQSMessage rh w
  = let sent :=
      called (SqsSend c (DeleteMessageCommand (env w !! "AWS_SQS_QUEUE_URL") rh)) w in
    match outside w (calls w) with
    | Returns r => (Normal r, sent)
    | Throws e => (Abrupt e, sent)
    end.
Proof.
  intros H. unfold SqsConfig.deleteSQSMessage, SqsConfig.getSQSClient, bind, read, ret.
  rewrite H. unfold call_outside. destruct (outside w (calls w)); reflexivity.
Qed.

End Client.

(* ===================================================================== *)
(** ** The polling loop *)
(* ===================================================================== *)

Section Poller.
Context {host : Host}.

Lemma on_message_safe m w : fst (Index.on_message m w) = Normal tt.
Proof.
  unfold Index.on_message, try_catch.
  match goal with
  | |- context [match ?b with _ => _ end] => destruct b as [[[]|e] w']
  end; reflexivity.
Qed.

Lemma for_of_total {A} (body : A -> M unit) :
  (forall x w, fst (body x w) = Normal tt) ->
  forall xs w,
    for_of xs body w = (Normal tt, fold_left (fun w x => snd (body x w)) xs w).
Proof.
  intros Hbody xs. induction xs as [|x rest IH]; intros w.
  - reflexivity.
  - cbn [for_of fold_left]. unfold bind.
    specialize (Hbody x w). destruct (body x w) as [r w1]. cbn in Hbody. subst r.
    apply IH.
Qed.

Lemma poll_round_cases w :
  Index.poll_round w
  = match SqsConfig.receiveSQSMessages 5 w with
    | (Normal ms, w1) => (Normal tt, fold_left handled ms w1)
    | (Abrupt e, w1) => (Normal tt, backed_off e w1)
    end.
Proof.
  unfold Index.poll_round, try_catch, bind.
  destruct (SqsConfig.receiveSQSMessages 5 w) as [[ms|e] w1].
  - rewrite (for_of_total _ on_message_safe). reflexivity.
  - reflexivity.
Qed.

Lemma poll_round_safe w : fst (Index.poll_round w) = Normal tt.
Proof.
  rewrite poll_round_cases.
  destruct (SqsConfig.receiveSQSMessages 5 w) as [[ms|e] w1]; reflexivity.
Qed.

Lemma polling_total fuel w :
  while_true fuel Index.poll_round w
  = (Normal Looping, rounds fuel (fun w => snd (Index.poll_round w)) w).
Proof. apply while_true_total. exact poll_round_safe. Qed.

End Poller.

Section Counting.

Lemma count_app p (t l : list event) : count p (t ++ l) = (count p t + count p l)%nat.
Proof. unfold count. rewrite List.filter_app, length_app. reflexivity. Qed.

Lemma count_none p (l : list event) :
  forallb (fun ev => negb (p ev)) l = true -> count p l = 0%nat.
Proof.
  unfold count. induction l as [|ev l IH]; cbn; [reflexivity|].
  intros H. apply andb_prop in H. destruct H as [H1 H2].
  destruct (p ev); [discriminate | auto].
Qed.

End Counting.

Section FailedRounds.
Context {host : Host}.

Lemma poll_round_not_ready w :
  ready w = false ->
  Index.poll_round w = (Normal tt, backed_off (Error (SqsConfig.errorMsg (env w)))
                                     (record (config_failure (env w)) w)).
Proof.
  intros H. rewrite poll_round_cases, (receive_missing 5 w H). reflexivity.
Qed.

Lemma failed_rounds fuel : forall w,
  ready w = false ->
  exists w',
    while_true fuel Index.poll_round w = (Normal Looping, w') /\
    trace w' = (trace w ++ concat (repeat (failed_round_events (env w)) fuel))%list /\
    sqsClient w' = sqsClient w /\ env w' = env w /\ calls w' = calls w /\
    now w' = now w + 5000 * Z.of_nat fuel.
Proof.
  induction fuel as [|n IH]; intros w H.
  - exists w. cbn. rewrite app_nil_r. repeat split; try reflexivity. lia.
  - cbn [while_true]. rewrite (bind_normal _ _ _ _ _ (poll_round_not_ready w H)).
    set (w1 := backed_off _ _).
    assert (H1 : ready w1 = false) by exact H.
    destruct (IH w1 H1) as (w' & Hrun & Htr & Hc & He & Hk & Hn).
    exists w'. rewrite Hrun, Htr, Hc, He, Hk, Hn. subst w1. cbn.
    rewrite <- !app_assoc. repeat split; try reflexivity. lia.
Qed.

End FailedRounds.

Section Messages.
Context {host : Host}.

Lemma on_message_events m w :
  exists evs,
    trace (handled w m) = (trace w ++ evs)%list /\
    env (handled w m) = env w /\
    outside (handled w m) = outside w /\
    now (handled w m) = now w /\
    forall ev, In ev evs -> event_of_message m ev.
Proof.
  unfold event_of_message, handled, Index.on_message, SqsConfig.deleteSQSMessage,
    SqsConfig.getSQSClient.
  unfold try_catch, bind, or_throw, read, ret, throw, console_log, console_error,
    emit_event, call_outside, set_sqsClient.
  destruct (JSON_parse (Body m)) as [body|] eqn:Hp; cbn; [|settle_events].
  destruct (get_field body "topic") as [t|]; cbn; [|settle_events].
  destruct (ToString t) as [shown|]; cbn; [|settle_events].
  destruct (outside w (calls w)); cbn; [|settle_events].
  destruct (sqsClient w) as [c|]; cbn.
  - destruct (outside w (S (calls w))); cbn; settle_events.
  - destruct (length (SqsConfig.missingVars (env w))); cbn.
    + destruct (outside w (S (calls w))); cbn; settle_events.
    + settle_events.
Qed.

Lemma batch_events ms : forall w,
  exists evs,
    trace (fold_left handled ms w) = (trace w ++ evs)%list /\
    env (fold_left handled ms w) = env w /\
    outside (fold_left handled ms w) = outside w /\
    now (fold_left handled ms w) = now w /\
    forall ev, In ev evs -> exists m, In m ms /\ event_of_message m ev.
Proof.
  induction ms as [|m rest IH]; intros w.
  - exists []. cbn. rewrite app_nil_r. repeat split. intros ev [].
  - cbn [fold_left].
    destruct (on_message_events m w) as (evs1 & Ht1 & He1 & Ho1 & Hn1 & Hin1).
    destruct (IH (handled w m)) as (evs2 & Ht2 & He2 & Ho2 & Hn2 & Hin2).
    exists (evs1 ++ evs2)%list.
    rewrite Ht2, Ht1, He2, He1, Ho2, Ho1, Hn2, Hn1, app_assoc.
    repeat split. intros ev Hin. apply in_app_or in Hin. destruct Hin as [Hin|Hin].
    + exists m. split; [left; reflexivity | auto].
    + destruct (Hin2 ev Hin) as (m' & Hm' & Hev). exists m'. split; [right|]; assumption.
Qed.

Lemma on_message_failed_early m w e :
  match JSON_parse (Body m) with
  | None => e = SyntaxError
  | Some body => showable body = false /\ e = TypeError
  end ->
  Index.on_message m w
  = (Normal tt, record (ConsoleError "Failed to parse SQS message:" (Some e)) w).
Proof.
  unfold Index.on_message, showable, try_catch, bind, or_throw.
  destruct (JSON_parse (Body m)) as [body|]; cbn.
  - destruct (get_field body "topic") as [t|]; cbn.
    + destruct (ToString t); cbn; intros [H ->]; [discriminate | reflexivity].
    + intros [_ ->]. reflexivity.
  - intros ->. reflexivity.
Qed.

End Messages.

Section Rounds.
Context {host : Host}.

Lemma connected_ready w ev :
  let w1 := called ev (connect w) in
  ready w1 = true /\ the_client w1 = the_client w /\ env w1 = env w /\
  init_events w1 = [] /\ connect w1 = w1.
Proof.
  cbn zeta. unfold ready, the_client, init_events, connect, called.
  destruct (sqsClient w) eqn:E; cbn; rewrite ?E; auto.
Qed.

Lemma round_ready w :
  ready w = true ->
  Index.poll_round w
  = let sent := called (receive_request w) (connect w) in
    match outside w (calls w) with
    | Returns r => (Normal tt, fold_left handled (default [] (Messages r)) sent)
    | Throws e => (Normal tt, backed_off e sent)
    end.
Proof.
  intros H. rewrite poll_round_cases, (receive_ready 5 w H). cbn zeta.
  destruct (outside w (calls w)); reflexivity.
Qed.

(** A round of a ready process begins by sending its receive request. *)
Lemma round_starts_with_receive w :
  ready w = true ->
  exists rest,
    trace (snd (Index.poll_round w))
    = (trace w ++ init_events w ++ receive_request w :: rest)%list.
Proof.
  intros H. rewrite (round_ready w H). cbn zeta.
  destruct (outside w (calls w)) as [r|e]; cbn [snd].
  - destruct (batch_events (default [] (Messages r)) (called (receive_request w) (connect w)))
      as (evs & Ht & _).
    exists evs. rewrite Ht. cbn [called trace]. rewrite connect_trace, <- !app_assoc.
    reflexivity.
  - eexists. cbn. rewrite connect_trace, <- !app_assoc. cbn. reflexivity.
Qed.

Lemma init_events_quiet p w :
  p (ConsoleLog "✅ SQS Client initialized successfully") = false ->
  count p (init_events w) = 0%nat.
Proof.
  intros H. unfold init_events, count. destruct (sqsClient w); cbn; [reflexivity|].
  rewrite H. reflexivity.
Qed.

End Rounds.

Section PollerClaims.
Context {host : Host}.

(** C2. No failure while a message is handled, and no failed poll, halts
    the polling loop: handling a message always completes normally, whatever
    was thrown while parsing, publishing or deleting; every message of a
    batch is therefore handled, in order; a round always completes normally,
    after the whole batch or after the back-off; and the loop runs every one
    of its rounds, each starting where the previous one ended. *)
Theorem C2_no_failure_halts_the_loop :
  (forall m w, fst (Index.on_message m w) = Normal tt) /\
  (forall ms w,
     for_of ms Index.on_message w = (Normal tt, fold_left handled ms w)) /\
  (forall w,
     Index.poll_round w
     = match SqsConfig.receiveSQSMessages 5 w with
       | (Normal ms, w1) => (Normal tt, fold_left handled ms w1)
       | (Abrupt e, w1) => (Normal tt, backed_off e w1)
       end) /\
  (forall fuel w,
     Index.startSQSPolling fuel w
     = (Normal Looping,
        rounds fuel (fun w => snd (Index.poll_round w))
          (record (ConsoleLog "📡 Starting SQS polling loop...") w))).
Proof.
  split; [exact on_message_safe|].
  split; [exact (for_of_total _ on_message_safe)|].
  split; [exact poll_round_cases|].
  intros fuel w. unfold Index.startSQSPolling, bind, console_log, emit_event.
  apply polling_total.
Qed.

(** C1, as the code has it.  When a required connection parameter is unset
    or empty and no client exists yet, building the queue client throws an
    Error that names the missing variables, after printing it, and caches
    nothing.  The error does not end the process and is not final: the
    polling loop catches it, prints it, sleeps 5000 ms and tries to build
    the client again in every later round, without ever calling the queue. *)
Theorem C1_missing_configuration_is_retried (fuel : nat) (w : world) (name : string) :
  sqsClient w = None ->
  In name SqsConfig.requiredEnvVars ->
  env_missing (env w) name = true ->
  SqsConfig.getSQSClient w
  = (Abrupt (Error (SqsConfig.errorMsg (env w))), record (config_failure (env w)) w) /\
  fst (Index.startSQSPolling fuel w) = Normal Looping /\
  trace (snd (Index.startSQSPolling fuel w))
  = (trace w ++ ConsoleLog "📡 Starting SQS polling loop..."
       :: concat (repeat (failed_round_events (env w)) fuel))%list /\
  sqsClient (snd (Index.startSQSPolling fuel w)) = None /\
  calls (snd (Index.startSQSPolling fuel w)) = calls w.
Proof.
  intros Hnone Hin Hmiss.
  assert (H : ready w = false) by (apply not_ready_iff; eauto).
  split; [exact (getSQSClient_missing w H)|].
  unfold Index.startSQSPolling, bind, console_log, emit_event.
  set (w0 := record _ w).
  destruct (failed_rounds fuel w0 H) as (w' & Hrun & Htr & Hc & _ & Hk & _).
  rewrite Hrun. cbn [fst snd]. rewrite Htr, Hc, Hk. subst w0. cbn.
  rewrite <- app_assoc. auto.
Qed.

(** C3. A message whose body does not parse adds one console line and
    nothing else: no call leaves the process, so nothing is published and
    nothing is deleted. *)
Theorem C3_unparsable_message_is_skipped (m : Message) (w : world) :
  JSON_parse (Body m) = None ->
  fst (Index.on_message m w) = Normal tt /\
  trace (handled w m)
  = (trace w ++ [ConsoleError "Failed to parse SQS message:" (Some SyntaxError)])%list /\
  calls (handled w m) = calls w /\
  count is_publish (trace (handled w m)) = count is_publish (trace w) /\
  count is_delete (trace (handled w m)) = count is_delete (trace w).
Proof.
  intros H. unfold handled.
  rewrite (on_message_failed_early m w SyntaxError) by (rewrite H; reflexivity).
  cbn [fst snd]. unfold record. cbn [trace calls]. rewrite !count_app.
  cbn. repeat split; lia.
Qed.

(** C4, the failing case.  A body that parses, but to a value whose log
    line cannot be built ([null], or a [topic] that has no string form), is
    treated like an unparsable one: the TypeError raised while the line is
    built is caught as a parse error, and the message is neither published
    nor deleted. *)
Theorem C4_parsed_but_not_published (m : Message) (w : world) (body : value) :
  JSON_parse (Body m) = Some body ->
  showable body = false ->
  fst (Index.on_message m w) = Normal tt /\
  trace (handled w m)
  = (trace w ++ [ConsoleError "Failed to parse SQS message:" (Some TypeError)])%list /\
  calls (handled w m) = calls w /\
  count is_publish (trace (handled w m)) = count is_publish (trace w) /\
  count is_delete (trace (handled w m)) = count is_delete (trace w).
Proof.
  intros H Hs. unfold handled.
  rewrite (on_message_failed_early m w TypeError) by (rewrite H; auto).
  cbn [fst snd]. unfold record. cbn [trace calls]. rewrite !count_app.
  cbn. repeat split; lia.
Qed.

(** A message that parses and can be shown is published once and then, if
    the broadcast returned, deleted once with its own receipt handle; a
    failed delete is printed and goes no further. *)
Theorem published_then_deleted (m : Message) (w : world) (body topic : value)
    (shown : string) (c : SQSClient) (r : reply) :
  JSON_parse (Body m) = Some body ->
  get_field body "topic" = Some topic ->
  ToString topic = Some shown ->
  sqsClient w = Some c ->
  outside w (calls w) = Returns r ->
  fst (Index.on_message m w) = Normal tt /\
  trace (handled w m)
  = (trace w
     ++ [ConsoleLog ("📩 New SQS Message: [" ++ shown ++ "] " ++ JSON_stringify body);
         IoEmit "message" body;
         SqsSend c (DeleteMessageCommand (env w !! "AWS_SQS_QUEUE_URL") (ReceiptHandle m))]
     ++ match outside w (S (calls w)) with
        | Returns _ => []
        | Throws e => [ConsoleError "Failed to parse SQS message:" (Some e)]
        end)%list.
Proof.
  intros Hp Ht Hs Hc Ho. split; [apply on_message_safe|].
  unfold handled, Index.on_message, SqsConfig.deleteSQSMessage, SqsConfig.getSQSClient.
  unfold try_catch, bind, or_throw, read, ret, throw, console_log, console_error,
    emit_event, call_outside.
  rewrite Hp. cbn. rewrite Ht. cbn. rewrite Hs. cbn. rewrite Ho. cbn. rewrite Hc. cbn.
  destruct (outside w (S (calls w))); cbn; rewrite <- !app_assoc; reflexivity.
Qed.

(** When the broadcast itself throws, the message is not deleted. *)
Theorem publish_failure_keeps_message (m : Message) (w : world) (body topic : value)
    (shown : string) (e : exn) :
  JSON_parse (Body m) = Some body ->
  get_field body "topic" = Some topic ->
  ToString topic = Some shown ->
  outside w (calls w) = Throws e ->
  trace (handled w m)
  = (trace w
     ++ [ConsoleLog ("📩 New SQS Message: [" ++ shown ++ "] " ++ JSON_stringify body);
         IoEmit "message" body;
         ConsoleError "Failed to parse SQS message:" (Some e)])%list.
Proof.
  intros Hp Ht Hs Ho.
  unfold handled, Index.on_message.
  unfold try_catch, bind, or_throw, read, ret, throw, console_log, console_error,
    emit_event, call_outside.
  rewrite Hp. cbn. rewrite Ht. cbn. rewrite Hs. cbn. rewrite Ho. cbn.
  rewrite <- !app_assoc. reflexivity.
Qed.

(** A round whose receive succeeds does nothing beyond its batch: after the
    receive request, every broadcast carries the parsed body of a message
    of the batch, every delete carries the receipt handle of a message of
    the batch, and no time is spent sleeping. *)
Theorem round_touches_only_its_batch (w : world) (r : reply) :
  ready w = true ->
  outside w (calls w) = Returns r ->
  exists evs,
    trace (snd (Index.poll_round w))
    = (trace w ++ init_events w ++ receive_request w :: evs)%list /\
    now (snd (Index.poll_round w)) = now w /\
    forall ev, In ev evs ->
      exists m, In m (default [] (Messages r)) /\ event_of_message m ev.
Proof.
  intros Hready Ho. rewrite (round_ready w Hready). cbn zeta. rewrite Ho. cbn [snd].
  destruct (batch_events (default [] (Messages r)) (called (receive_request w) (connect w)))
    as (evs & Ht & _ & _ & Hn & Hin).
  destruct (connect_frame w) as (_ & Hnow & _).
  exists evs. rewrite Ht, Hn. cbn [called trace now].
  rewrite connect_trace, <- !app_assoc. auto.
Qed.

(** C5. When the receive request of a round fails with [e], the round
    prints the error, sleeps 5000 ms and ends normally: the error goes no
    further and the loop goes on from there, its next round starting with
    the next receive request. *)
Theorem C5_receive_failure_backs_off (fuel : nat) (w : world) (e : exn) :
  ready w = true ->
  outside w (calls w) = Throws e ->
  let w2 := backed_off e (called (receive_request w) (connect w)) in
  Index.poll_round w = (Normal tt, w2) /\
  trace w2
  = (trace w ++ init_events w
     ++ [receive_request w; ConsoleError "SQS Polling Error:" (Some e); SetTimeout 5000])%list /\
  now w2 = now w + 5000 /\
  while_true (S fuel) Index.poll_round w = while_true fuel Index.poll_round w2 /\
  fst (while_true (S fuel) Index.poll_round w) = Normal Looping /\
  exists rest,
    trace (snd (Index.poll_round w2)) = (trace w2 ++ receive_request w :: rest)%list.
Proof.
  intros Hready Ho w2.
  assert (Hround : Index.poll_round w = (Normal tt, w2)).
  { rewrite (round_ready w Hready). cbn zeta. rewrite Ho. reflexivity. }
  destruct (connect_frame w) as (_ & Hnow & _).
  split; [exact Hround|].
  split; [subst w2; cbn; rewrite connect_trace, <- !app_assoc; reflexivity|].
  split; [subst w2; cbn; rewrite Hnow; reflexivity|].
  split; [cbn [while_true]; rewrite (bind_normal _ _ _ _ _ Hround); reflexivity|].
  split; [rewrite polling_total; reflexivity|].
  destruct (connected_ready w (receive_request w)) as (Hr & Hc & He & Hi & _).
  assert (Hr2 : ready w2 = true) by exact Hr.
  destruct (round_starts_with_receive w2 Hr2) as (rest & Hrest).
  exists rest. rewrite Hrest.
  assert (Hi2 : init_events w2 = []) by exact Hi.
  assert (Hq : receive_request w2 = receive_request w).
  { unfold receive_request. f_equal; [exact Hc | f_equal; f_equal; exact He]. }
  rewrite Hi2, Hq. reflexivity.
Qed.

(** C6. When the receive request of a round succeeds with no message, the
    round ends there: nothing is deleted, no timer is set, no time is spent
    sleeping, and the next round starts at once with the next receive
    request. *)
Theorem C6_empty_receive_no_delay (fuel : nat) (w : world) (r : reply) :
  ready w = true ->
  outside w (calls w) = Returns r ->
  Messages r = None \/ Messages r = Some [] ->
  let w1 := called (receive_request w) (connect w) in
  Index.poll_round w = (Normal tt, w1) /\
  trace w1 = (trace w ++ init_events w ++ [receive_request w])%list /\
  now w1 = now w /\
  count is_delete (trace w1) = count is_delete (trace w) /\
  count is_sleep (trace w1) = count is_sleep (trace w) /\
  while_true (S fuel) Index.poll_round w = while_true fuel Index.poll_round w1 /\
  exists rest,
    trace (snd (Index.poll_round w1)) = (trace w1 ++ receive_request w :: rest)%list.
Proof.
  intros Hready Ho Hnone w1.
  assert (Hround : Index.poll_round w = (Normal tt, w1)).
  { rewrite (round_ready w Hready). cbn zeta. rewrite Ho.
    destruct Hnone as [-> | ->]; reflexivity. }
  destruct (connect_frame w) as (_ & Hnow & _).
  assert (Htrace : trace w1 = (trace w ++ init_events w ++ [receive_request w])%list).
  { subst w1. cbn. rewrite connect_trace, <- !app_assoc. reflexivity. }
  split; [exact Hround|].
  split; [exact Htrace|].
  split; [exact Hnow|].
  split; [rewrite Htrace, !count_app, init_events_quiet by reflexivity; cbn; lia|].
  split; [rewrite Htrace, !count_app, init_events_quiet by reflexivity; cbn; lia|].
  split; [cbn [while_true]; rewrite (bind_normal _ _ _ _ _ Hround); reflexivity|].
  destruct (connected_ready w (receive_request w)) as (Hr & Hc & He & Hi & _).
  assert (Hr1 : ready w1 = true) by exact Hr.
  destruct (round_starts_with_receive w1 Hr1) as (rest & Hrest).
  exists rest. rewrite Hrest.
  assert (Hi1 : init_events w1 = []) by exact Hi.
  assert (Hq : receive_request w1 = receive_request w).
  { unfold receive_request. f_equal; [exact Hc | f_equal; f_equal; exact He]. }
  rewrite Hi1, Hq. reflexivity.
Qed.

End PollerClaims.

(** C1, a sample run: with the region unset, three rounds of the loop. *)
Lemma C1_missing_configuration_is_retried_witness :
  let w := Demo.start Demo.no_region Demo.quiet in
  SqsConfig.getSQSClient w
  = (Abrupt (Error (SqsConfig.errorMsg (env w))), record (config_failure (env w)) w) /\
  fst (@Index.startSQSPolling Demo.host 3 w) = Normal Looping /\
  trace (snd (@Index.startSQSPolling Demo.host 3 w))
  = (trace w ++ ConsoleLog "📡 Starting SQS polling loop..."
       :: concat (repeat (failed_round_events (env w)) 3))%list /\
  sqsClient (snd (@Index.startSQSPolling Demo.host 3 w)) = None /\
  calls (snd (@Index.startSQSPolling Demo.host 3 w)) = calls w.
Proof.
  apply (@C1_missing_configuration_is_retried Demo.host 3
           (Demo.start Demo.no_region Demo.quiet) "AWS_REGION").
  - reflexivity.
  - left. reflexivity.
  - vm_compute. reflexivity.
Defined.

(** C1 as stated fails: in a process started with an empty environment the
    configuration error is not fatal (the loop is still running after three
    rounds) and construction has been attempted, and has failed, three
    times, with a 5000 ms pause after each. *)
Lemma C1_counterexample :
  ready (Demo.start ∅ Demo.quiet) = false /\
  fst (@Index.startSQSPolling Demo.host 3 (Demo.start ∅ Demo.quiet)) = Normal Looping /\
  count is_config_failure
    (trace (snd (@Index.startSQSPolling Demo.host 3 (Demo.start ∅ Demo.quiet)))) = 3%nat /\
  count is_sleep
    (trace (snd (@Index.startSQSPolling Demo.host 3 (Demo.start ∅ Demo.quiet)))) = 3%nat.
Proof. vm_compute. repeat split; reflexivity. Qed.


(* ===================================================================== *)
(** ** Sending *)
(* ===================================================================== *)

Section Objects.

Lemma lookup_obj_set_eq k v props : lookup_prop k (obj_set k v props) = Some v.
Proof.
  induction props as [|[k' v'] rest IH]; cbn.
  - rewrite String.eqb_refl. reflexivity.
  - destruct (String.eqb k' k) eqn:E; cbn.
    + rewrite String.eqb_refl. reflexivity.
    + rewrite E. exact IH.
Qed.

Lemma lookup_obj_set_ne k k' v props :
  k <> k' -> lookup_prop k' (obj_set k v props) = lookup_prop k' props.
Proof.
  intros Hne. induction props as [|[k0 v0] rest IH]; cbn.
  - apply String.eqb_neq in Hne. rewrite Hne. reflexivity.
  - destruct (String.eqb k0 k) eqn:E; cbn.
    + apply String.eqb_eq in E. subst k0.
      apply String.eqb_neq in Hne. rewrite Hne. reflexivity.
    + destruct (String.eqb k0 k'); [reflexivity | exact IH].
Qed.

Lemma obj_set_fresh k v props :
  lookup_prop k props = None -> obj_set k v props = (props ++ [(k, v)])%list.
Proof.
  induction props as [|[k0 v0] rest IH]; cbn; [reflexivity|].
  destruct (String.eqb k0 k); [discriminate|].
  intros H. rewrite (IH H). reflexivity.
Qed.

End Objects.

Section Sending.
Context {host : Host}.

Lemma send_ready data topic w :
  ready w = true ->
  SqsConfig.sendSQSMessage data topic w
  = let sent := called (send_request data topic w) (connect w) in
    match outside w (calls w) with
    | Returns r => (Normal r, sent)
    | Throws e => (Abrupt e, sent)
    end.
Proof.
  intros H. unfold SqsConfig.sendSQSMessage.
  rewrite (bind_normal _ _ _ _ _ (getSQSClient_ready w H)).
  destruct (connect_frame w) as (He & Hn & Ho & Hc & _).
  unfold bind, read, call_outside, send_request. rewrite He, Hn, Ho, Hc.
  destruct (outside w (calls w)); reflexivity.
Qed.

Lemma send_missing data topic w :
  ready w = false ->
  SqsConfig.sendSQSMessage data topic w
  = (Abrupt (Error (SqsConfig.errorMsg (env w))), record (config_failure (env w)) w).
Proof.
  intros H. unfold SqsConfig.sendSQSMessage.
  apply bind_abrupt. apply getSQSClient_missing. exact H.
Qed.

(** C7. Sending [data] under [topic] issues one request whose body is the
    JSON text of an object that keeps the fields of [data] and sets [topic]
    and [timestamp], the time being read when the message is sent; the
    topic also travels as a string attribute; an absent topic is
    ["general"].  On the receiving side the poller broadcasts the parsed
    body as it is: it sets no field of its own. *)
Theorem C7_send_builds_the_envelope (data : list (string * value))
    (topic : value) (w : world) :
  ready w = true ->
  let sent := snd (SqsConfig.sendSQSMessage data topic w) in
  let tagged := SqsConfig.topic_or_general topic in
  let body := SqsConfig.envelope data tagged (now w) in
  trace sent
  = (trace w ++ init_events w
     ++ [SqsSend (the_client w)
           (SendMessageCommand (env w !! "AWS_SQS_QUEUE_URL") (JSON_stringify body)
              {| DataType := "String"; StringValue := tagged |})])%list /\
  (topic = VUndefined -> tagged = VStr "general") /\
  (topic <> VUndefined -> tagged = topic) /\
  lookup_prop "topic" (props_of body) = Some tagged /\
  lookup_prop "timestamp" (props_of body) = Some (VStr (Date_toISOString (now w))) /\
  (forall k, k <> "topic" -> k <> "timestamp" ->
     lookup_prop k (props_of body) = lookup_prop k data) /\
  (lookup_prop "topic" data = None -> lookup_prop "timestamp" data = None ->
   props_of body
   = (data ++ [("topic", tagged); ("timestamp", VStr (Date_toISOString (now w)))])%list) /\
  (forall (m : Message) (w' : world),
     exists evs,
       trace (handled w' m) = (trace w' ++ evs)%list /\
       forall name payload,
         In (IoEmit name payload) evs ->
         name = "message" /\ JSON_parse (Body m) = Some payload).
Proof.
  intros H sent tagged body.
  split.
  { subst sent. rewrite (send_ready data topic w H). cbn zeta.
    destruct (outside w (calls w)); cbn [snd called trace];
      rewrite connect_trace, <- app_assoc; reflexivity. }
  split; [intros ->; reflexivity|].
  split; [intros Hne; subst tagged; destruct topic; try reflexivity; contradiction|].
  subst body. unfold SqsConfig.envelope. cbn [props_of].
  split.
  { rewrite lookup_obj_set_ne by discriminate. apply lookup_obj_set_eq. }
  split; [apply lookup_obj_set_eq|].
  split.
  { intros k H1 H2. rewrite !lookup_obj_set_ne by congruence. reflexivity. }
  split.
  { intros H1 H2. rewrite (obj_set_fresh "topic" _ _ H1).
    rewrite obj_set_fresh.
    - rewrite <- app_assoc. reflexivity.
    - rewrite <- (obj_set_fresh "topic" tagged _ H1).
      rewrite lookup_obj_set_ne by discriminate. exact H2. }
  intros m w'. destruct (on_message_events m w') as (evs & Ht & _ & _ & _ & Hin).
  exists evs. split; [exact Ht|].
  intros name payload Hev. exact (Hin _ Hev).
Qed.

Lemma recorded_ready ev w :
  ready (record ev w) = ready w /\ the_client (record ev w) = the_client w /\
  init_events (record ev w) = init_events w /\
  trace (connect (record ev w)) = (trace w ++ ev :: init_events w)%list.
Proof.
  unfold ready, the_client, init_events, connect, record.
  destruct (sqsClient w) eqn:E; cbn; rewrite ?E; cbn; rewrite <- ?app_assoc; auto.
Qed.

(** Whatever a client sends, and whatever happens to it, handling the event
    publishes nothing. *)
Lemma on_send_message_publishes_nothing sid data w :
  fst (Index.on_send_message sid data w) = Normal tt /\
  exists evs,
    trace (snd (Index.on_send_message sid data w)) = (trace w ++ evs)%list /\
    count is_publish evs = 0%nat.
Proof.
  unfold Index.on_send_message, SqsConfig.sendSQSMessage, SqsConfig.getSQSClient.
  unfold try_catch, bind, or_throw, read, ret, throw, console_log, console_error,
    emit_event, call_outside, set_sqsClient.
  destruct (get_field data "text") as [text|]; cbn;
    [|split; [reflexivity | eexists; split; [reflexivity | reflexivity]]].
  destruct (get_field data "topic") as [topic|]; cbn;
    [|split; [reflexivity | eexists; split; [reflexivity | reflexivity]]].
  destruct (ToString topic) as [st|]; cbn;
    [|split; [reflexivity | eexists; split; [reflexivity | reflexivity]]].
  destruct (ToString text) as [sx|]; cbn;
    [|split; [reflexivity | eexists; split; [reflexivity | reflexivity]]].
  destruct (sqsClient w) as [c|]; cbn.
  - destruct (outside w (calls w)); cbn; (split; [reflexivity|]);
      eexists; (split; [rewrite <- ?app_assoc; reflexivity | reflexivity]).
  - destruct (length (SqsConfig.missingVars (env w))); cbn.
    + destruct (outside w (calls w)); cbn; (split; [reflexivity|]);
        eexists; (split; [rewrite <- ?app_assoc; reflexivity | reflexivity]).
    + split; [reflexivity|].
      eexists; (split; [rewrite <- ?app_assoc; reflexivity | reflexivity]).
Qed.

(** An event whose [topic] or [text] has no string form is dropped while
    its log line is built: the TypeError is printed and nothing is sent. *)
Theorem unshowable_event_is_dropped (sid : string) (data text topic : value)
    (w : world) :
  get_field data "text" = Some text ->
  get_field data "topic" = Some topic ->
  ToString topic = None \/ ToString text = None ->
  Index.on_send_message sid data w
  = (Normal tt, record (ConsoleError "Socket send-message error:" (Some TypeError)) w).
Proof.
  intros Hx Ht Hnone.
  unfold Index.on_send_message, try_catch, bind, or_throw.
  rewrite Hx, Ht. cbn [ret].
  destruct (ToString topic) as [st|]; cbn [ret throw]; [|reflexivity].
  destruct Hnone as [Hnone|Hnone]; [discriminate|]. rewrite Hnone. reflexivity.
Qed.

(** C8. A [send-message] event whose [text] and [topic] can be shown is
    forwarded to the queue, once, with the sending socket's id as
    [senderId]; a failure of the request is printed; nothing is broadcast
    to the connected clients while the event is handled. *)
Theorem C8_client_message_goes_to_the_queue (sid : string) (data text topic : value)
    (shownTopic shownText : string) (w : world) :
  get_field data "text" = Some text ->
  get_field data "topic" = Some topic ->
  ToString topic = Some shownTopic ->
  ToString text = Some shownText ->
  ready w = true ->
  let payload := [("text", text); ("senderId", VStr sid)] in
  let w' := snd (Index.on_send_message sid data w) in
  fst (Index.on_send_message sid data w) = Normal tt /\
  trace w'
  = (trace w
     ++ ConsoleLog ("📡 Sending message to SQS: [" ++ shownTopic ++ "] " ++ shownText)
     :: init_events w
     ++ send_request payload topic w
     :: match outside w (calls w) with
        | Returns _ => []
        | Throws e => [ConsoleError "Socket send-message error:" (Some e)]
        end)%list /\
  lookup_prop "senderId"
    (props_of (SqsConfig.envelope payload (SqsConfig.topic_or_general topic) (now w)))
  = Some (VStr sid) /\
  count is_publish (trace w') = count is_publish (trace w).
Proof.
  intros Hx Ht Hst Hsx Hready payload w'.
  destruct (on_send_message_publishes_nothing sid data w) as (Hfst & evs & Hevs & Hnone).
  split; [exact Hfst|].
  split.
  { subst w'. unfold Index.on_send_message, try_catch.
    unfold bind at 1, or_throw. rewrite Hx. cbn [ret].
    unfold bind at 1. rewrite Ht. cbn [ret].
    unfold bind at 1. rewrite Hst. cbn [ret].
    unfold bind at 1. rewrite Hsx. cbn [ret].
    unfold bind at 1, console_log, emit_event.
    set (w1 := record _ w).
    destruct (recorded_ready
                (ConsoleLog ("📡 Sending message to SQS: [" ++ shownTopic ++ "] " ++ shownText)) w)
      as (Hr1 & Hc1 & Hi1 & Ht1).
    fold w1 in Hr1, Hc1, Hi1, Ht1.
    assert (Hready1 : ready w1 = true) by (rewrite Hr1; exact Hready).
    fold payload. unfold bind. rewrite (send_ready payload topic w1 Hready1). cbn zeta.
    assert (Hreq : send_request payload topic w1 = send_request payload topic w).
    { unfold send_request. rewrite Hc1. reflexivity. }
    rewrite Hreq.
    change (outside w1 (calls w1)) with (outside w (calls w)).
    destruct (outside w (calls w)); cbn [snd called trace console_error emit_event record ret];
      rewrite Ht1; cbn; rewrite <- ?app_assoc; reflexivity. }
  split; [reflexivity|].
  subst w'. rewrite Hevs, count_app, Hnone. lia.
Qed.

End Sending.

(* ===================================================================== *)
(** ** Signed URLs and CloudFront URLs *)
(* ===================================================================== *)

Section Urls.
Context {host : Host}.

Lemma strip_trailing_slash_spec (d : string) :
  (exists d', d = d' ++ "/" /\ strip_trailing_slash d = d') \/
  ((forall d', d <> d' ++ "/") /\ strip_trailing_slash d = d).
Proof.
  induction d as [|c r IH].
  - right. split; [|reflexivity]. intros [|a d']; discriminate.
  - destruct r as [|c2 r2].
    + cbn. destruct (Ascii.eqb_spec c "/") as [->|Hne].
      * left. exists "". split; reflexivity.
      * right. split; [|reflexivity].
        intros [|a [|b d']]; cbn; intros Heq; inversion Heq; contradiction.
    + change (strip_trailing_slash (String c (String c2 r2)))
        with (String c (strip_trailing_slash (String c2 r2))).
      destruct IH as [(d' & Hd & Hs) | (Hno & Hs)].
      * left. exists (String c d'). rewrite Hs, Hd. split; reflexivity.
      * right. rewrite Hs. split; [|reflexivity].
        intros [|a d'] Heq; cbn in Heq; inversion Heq. exact (Hno d' H1).
Qed.

Lemma strip_leading_slash_spec (k : string) :
  (exists k', k = "/" ++ k' /\ strip_leading_slash k = k') \/
  ((forall k', k <> "/" ++ k') /\ strip_leading_slash k = k).
Proof.
  destruct k as [|c r].
  - right. split; [|reflexivity]. intros k'. discriminate.
  - cbn. destruct (Ascii.eqb_spec c "/") as [->|Hne].
    + left. exists r. split; reflexivity.
    + right. split; [|reflexivity]. intros k' Heq. inversion Heq. contradiction.
Qed.

(** C10. For a string key, the CloudFront URL is [null] exactly when the
    domain variable is unset or empty; otherwise it is ["https://"], the
    domain without one trailing slash if it ends with one, ["/"], and the
    key without one leading slash if it starts with one. *)
Theorem C10_cloudfront_url (e : gmap string string) (key : string) :
  (S3Config.getCloudFrontUrl e (VStr key) = Normal None <->
   e !! "AWS_CLOUDFRONT_DOMAIN" = None \/ e !! "AWS_CLOUDFRONT_DOMAIN" = Some "") /\
  (forall domain,
     e !! "AWS_CLOUDFRONT_DOMAIN" = Some domain -> domain <> "" ->
     exists cleanDomain cleanKey,
       S3Config.getCloudFrontUrl e (VStr key)
       = Normal (Some ("https://" ++ cleanDomain ++ "/" ++ cleanKey)) /\
       (domain = cleanDomain ++ "/" \/
        (cleanDomain = domain /\ forall d, domain <> d ++ "/")) /\
       (key = "/" ++ cleanKey \/
        (cleanKey = key /\ forall k, key <> "/" ++ k))).
Proof.
  unfold S3Config.getCloudFrontUrl. split.
  - destruct (e !! "AWS_CLOUDFRONT_DOMAIN") as [domain|] eqn:E.
    + destruct domain as [|c r]; cbn.
      * split; auto.
      * split; [discriminate|]. intros [H|H]; discriminate.
    + split; auto.
  - intros domain -> Hne.
    destruct domain as [|c r]; [contradiction|]. cbn [is_empty].
    exists (strip_trailing_slash (String c r)), (strip_leading_slash key).
    split; [reflexivity|]. split.
    + destruct (strip_trailing_slash_spec (String c r)) as [(d' & Hd & Hs) | (Hno & Hs)].
      * left. rewrite Hs. exact Hd.
      * right. rewrite Hs. auto.
    + destruct (strip_leading_slash_spec key) as [(k' & Hk & Hs) | (Hno & Hs)].
      * left. rewrite Hs. exact Hk.
      * right. rewrite Hs. auto.
Qed.


(** A request whose [fileKey] is missing or falsy is answered 400 and has
    no effect. *)
Theorem missing_fileKey_is_rejected (body fileKey : value) (w : world) :
  get_field body "fileKey" = Some fileKey ->
  truthy fileKey = false ->
  UploadRoutes.post_get_signed_url body w
  = (Normal (UploadRoutes.BadRequest "fileKey is required"), w) /\
  UploadRoutes.status (UploadRoutes.BadRequest "fileKey is required") = 400.
Proof.
  intros Hk Hfalsy. split; [|reflexivity].
  unfold UploadRoutes.post_get_signed_url, try_catch, bind, or_throw.
  rewrite Hk. cbn [ret].
  assert (Hraw : exists raw, get_field body "expiresIn" = Some raw).
  { destruct body; try discriminate Hk; cbn; eauto. }
  destruct Hraw as (raw & ->). cbn [ret]. rewrite Hfalsy. reflexivity.
Qed.


End Urls.

(* ===================================================================== *)
(** ** Sample runs *)
(* ===================================================================== *)

(** C3 on the text [not-json]. *)
Lemma C3_unparsable_message_is_skipped_witness :
  let m := {| Body := "not-json"; ReceiptHandle := "r2" |} in
  let w := Demo.start Demo.configured Demo.quiet in
  fst (@Index.on_message Demo.host m w) = Normal tt /\
  trace (@handled Demo.host w m)
  = [ConsoleError "Failed to parse SQS message:" (Some SyntaxError)] /\
  calls (@handled Demo.host w m) = calls w /\
  count is_publish (trace (@handled Demo.host w m)) = count is_publish (trace w) /\
  count is_delete (trace (@handled Demo.host w m)) = count is_delete (trace w).
Proof.
  exact (@C3_unparsable_message_is_skipped Demo.host
           {| Body := "not-json"; ReceiptHandle := "r2" |}
           (Demo.start Demo.configured Demo.quiet) eq_refl).
Defined.

(** C4 on the text [null]: it parses, and the message is neither published
    nor deleted. *)
Lemma C4_parsed_but_not_published_witness :
  let m := {| Body := "null"; ReceiptHandle := "r3" |} in
  let w := Demo.start Demo.configured Demo.quiet in
  fst (@Index.on_message Demo.host m w) = Normal tt /\
  trace (@handled Demo.host w m)
  = [ConsoleError "Failed to parse SQS message:" (Some TypeError)] /\
  calls (@handled Demo.host w m) = calls w /\
  count is_publish (trace (@handled Demo.host w m)) = count is_publish (trace w) /\
  count is_delete (trace (@handled Demo.host w m)) = count is_delete (trace w).
Proof.
  exact (@C4_parsed_but_not_published Demo.host
           {| Body := "null"; ReceiptHandle := "r3" |}
           (Demo.start Demo.configured Demo.quiet) VNull eq_refl eq_refl).
Defined.

(** A message of the expected shape, once the client exists: published,
    then deleted with its own receipt handle. *)
Lemma published_then_deleted_witness :
  let m := {| Body := Demo.hi_body; ReceiptHandle := "r1" |} in
  let c := SqsConfig.new_SQSClient Demo.configured in
  let w := with_sqsClient c (Demo.start Demo.configured Demo.quiet) in
  fst (@Index.on_message Demo.host m w) = Normal tt /\
  trace (@handled Demo.host w m)
  = [ConsoleLog ("📩 New SQS Message: [t1] " ++ Demo.hi_body);
     IoEmit "message" (VObj [("text", VStr "hi"); ("topic", VStr "t1")]);
     SqsSend c (DeleteMessageCommand (Demo.configured !! "AWS_SQS_QUEUE_URL") "r1")].
Proof.
  exact (@published_then_deleted Demo.host
           {| Body := Demo.hi_body; ReceiptHandle := "r1" |}
           (with_sqsClient (SqsConfig.new_SQSClient Demo.configured)
              (Demo.start Demo.configured Demo.quiet))
           (VObj [("text", VStr "hi"); ("topic", VStr "t1")]) (VStr "t1") "t1"
           (SqsConfig.new_SQSClient Demo.configured) Demo.empty_reply
           eq_refl eq_refl eq_refl eq_refl eq_refl).
Defined.

(** The same message when the broadcast throws. *)
Lemma publish_failure_keeps_message_witness :
  let m := {| Body := Demo.hi_body; ReceiptHandle := "r1" |} in
  let w := Demo.start Demo.configured (fun _ => Throws (ServiceError "closed")) in
  trace (@handled Demo.host w m)
  = [ConsoleLog ("📩 New SQS Message: [t1] " ++ Demo.hi_body);
     IoEmit "message" (VObj [("text", VStr "hi"); ("topic", VStr "t1")]);
     ConsoleError "Failed to parse SQS message:" (Some (ServiceError "closed"))].
Proof.
  exact (@publish_failure_keeps_message Demo.host
           {| Body := Demo.hi_body; ReceiptHandle := "r1" |}
           (Demo.start Demo.configured (fun _ => Throws (ServiceError "closed")))
           (VObj [("text", VStr "hi"); ("topic", VStr "t1")]) (VStr "t1") "t1"
           (ServiceError "closed") eq_refl eq_refl eq_refl eq_refl).
Defined.

(** C5 when the queue cannot be reached. *)
Lemma C5_receive_failure_backs_off_witness :
  let e := ServiceError "NetworkingError" in
  let w := Demo.start Demo.configured (fun _ => Throws e) in
  let w2 := backed_off e (called (receive_request w) (connect w)) in
  @Index.poll_round Demo.host w = (Normal tt, w2) /\
  trace w2
  = (trace w ++ init_events w
     ++ [receive_request w; ConsoleError "SQS Polling Error:" (Some e); SetTimeout 5000])%list /\
  now w2 = now w + 5000 /\
  while_true 2 (@Index.poll_round Demo.host) w
  = while_true 1 (@Index.poll_round Demo.host) w2 /\
  fst (while_true 2 (@Index.poll_round Demo.host) w) = Normal Looping /\
  exists rest,
    trace (snd (@Index.poll_round Demo.host w2)) = (trace w2 ++ receive_request w :: rest)%list.
Proof.
  exact (@C5_receive_failure_backs_off Demo.host 1
           (Demo.start Demo.configured (fun _ => Throws (ServiceError "NetworkingError")))
           (ServiceError "NetworkingError") eq_refl eq_refl).
Defined.

(** C6 when the queue is empty. *)
Lemma C6_empty_receive_no_delay_witness :
  let w := Demo.start Demo.configured Demo.quiet in
  let w1 := called (receive_request w) (connect w) in
  @Index.poll_round Demo.host w = (Normal tt, w1) /\
  trace w1 = (trace w ++ init_events w ++ [receive_request w])%list /\
  now w1 = now w /\
  count is_delete (trace w1) = count is_delete (trace w) /\
  count is_sleep (trace w1) = count is_sleep (trace w) /\
  while_true 2 (@Index.poll_round Demo.host) w
  = while_true 1 (@Index.poll_round Demo.host) w1 /\
  exists rest,
    trace (snd (@Index.poll_round Demo.host w1)) = (trace w1 ++ receive_request w :: rest)%list.
Proof.
  exact (@C6_empty_receive_no_delay Demo.host 1
           (Demo.start Demo.configured Demo.quiet) Demo.empty_reply
           eq_refl eq_refl (or_introl eq_refl)).
Defined.

(** C7 for the payload [{text: "hi"}] sent without a topic. *)
Lemma C7_send_builds_the_envelope_witness :
  let data := [("text", VStr "hi")] in
  let w := Demo.start Demo.configured Demo.quiet in
  let sent := snd (@SqsConfig.sendSQSMessage Demo.host data VUndefined w) in
  let tagged := SqsConfig.topic_or_general VUndefined in
  let body := @SqsConfig.envelope Demo.host data tagged (now w) in
  trace sent
  = (trace w ++ init_events w
     ++ [SqsSend (the_client w)
           (SendMessageCommand (env w !! "AWS_SQS_QUEUE_URL")
              (@JSON_stringify Demo.host body)
              {| DataType := "String"; StringValue := tagged |})])%list /\
  (VUndefined = VUndefined -> tagged = VStr "general") /\
  (VUndefined <> VUndefined -> tagged = VUndefined) /\
  lookup_prop "topic" (props_of body) = Some tagged /\
  lookup_prop "timestamp" (props_of body)
  = Some (VStr (@Date_toISOString Demo.host (now w))) /\
  (forall k, k <> "topic" -> k <> "timestamp" ->
     lookup_prop k (props_of body) = lookup_prop k data) /\
  (lookup_prop "topic" data = None -> lookup_prop "timestamp" data = None ->
   props_of body
   = (data ++ [("topic", tagged);
               ("timestamp", VStr (@Date_toISOString Demo.host (now w)))])%list) /\
  (forall (m : Message) (w' : world),
     exists evs,
       trace (@handled Demo.host w' m) = (trace w' ++ evs)%list /\
       forall name payload,
         In (IoEmit name payload) evs ->
         name = "message" /\ @JSON_parse Demo.host (Body m) = Some payload).
Proof.
  exact (@C7_send_builds_the_envelope Demo.host [("text", VStr "hi")] VUndefined
           (Demo.start Demo.configured Demo.quiet) eq_refl).
Defined.

(** C8 for the event [{text: "hello", topic: "t1"}] of the socket [sock1]. *)
Lemma C8_client_message_goes_to_the_queue_witness :
  let data := VObj [("text", VStr "hello"); ("topic", VStr "t1")] in
  let w := Demo.start Demo.configured Demo.quiet in
  let payload := [("text", VStr "hello"); ("senderId", VStr "sock1")] in
  let w' := snd (@Index.on_send_message Demo.host "sock1" data w) in
  fst (@Index.on_send_message Demo.host "sock1" data w) = Normal tt /\
  trace w'
  = (trace w
     ++ ConsoleLog ("📡 Sending message to SQS: [" ++ "t1" ++ "] " ++ "hello")
     :: init_events w
     ++ @send_request Demo.host payload (VStr "t1") w
     :: match outside w (calls w) with
        | Returns _ => []
        | Throws e => [ConsoleError "Socket send-message error:" (Some e)]
        end)%list /\
  lookup_prop "senderId"
    (props_of (@SqsConfig.envelope Demo.host payload
                 (SqsConfig.topic_or_general (VStr "t1")) (now w)))
  = Some (VStr "sock1") /\
  count is_publish (trace w') = count is_publish (trace w).
Proof.
  exact (@C8_client_message_goes_to_the_queue Demo.host "sock1"
           (VObj [("text", VStr "hello"); ("topic", VStr "t1")])
           (VStr "hello") (VStr "t1") "t1" "hello"
           (Demo.start Demo.configured Demo.quiet)
           eq_refl eq_refl eq_refl eq_refl eq_refl).
Defined.


(** C10 for a domain with a trailing slash and a key with a leading one. *)
Lemma C10_cloudfront_url_witness :
  exists cleanDomain cleanKey,
    S3Config.getCloudFrontUrl Demo.configured (VStr "/uploads/a.jpg")
    = Normal (Some ("https://" ++ cleanDomain ++ "/" ++ cleanKey)) /\
    ("d123.cloudfront.net/" = cleanDomain ++ "/" \/
     (cleanDomain = "d123.cloudfront.net/" /\ forall d, "d123.cloudfront.net/" <> d ++ "/")) /\
    ("/uploads/a.jpg" = "/" ++ cleanKey \/
     (cleanKey = "/uploads/a.jpg" /\ forall k, "/uploads/a.jpg" <> "/" ++ k)).
Proof.
  apply (proj2 (C10_cloudfront_url Demo.configured "/uploads/a.jpg") "d123.cloudfront.net/").
  - reflexivity.
  - discriminate.
Defined.

(** A round that receives the three sample messages. *)
Lemma round_touches_only_its_batch_witness :
  let batch :=
    {| Messages := Some [ {| Body := Demo.hi_body; ReceiptHandle := "r1" |};
                          {| Body := "not-json"; ReceiptHandle := "r2" |};
                          {| Body := "null"; ReceiptHandle := "r3" |} ];
       Url := "" |} in
  let w :=
    Demo.start Demo.configured
      (fun k => match k with O => Returns batch | _ => Demo.quiet k end) in
  exists evs,
    trace (snd (@Index.poll_round Demo.host w))
    = (trace w ++ init_events w ++ receive_request w :: evs)%list /\
    now (snd (@Index.poll_round Demo.host w)) = now w /\
    forall ev, In ev evs ->
      exists m, In m (default [] (Messages batch)) /\ @event_of_message Demo.host m ev.
Proof.
  exact (@round_touches_only_its_batch Demo.host
           (Demo.start Demo.configured
              (fun k =>
                 match k with
                 | O => Returns
                          {| Messages :=
                               Some [ {| Body := Demo.hi_body; ReceiptHandle := "r1" |};
                                      {| Body := "not-json"; ReceiptHandle := "r2" |};
                                      {| Body := "null"; ReceiptHandle := "r3" |} ];
                             Url := "" |}
                 | _ => Demo.quiet k
                 end))
           _ eq_refl eq_refl).
Defined.

(** A request without a [fileKey]. *)
Lemma missing_fileKey_is_rejected_witness :
  let body := VObj [("expiresIn", VNum 60)] in
  let w := Demo.start Demo.configured Demo.quiet in
  @UploadRoutes.post_get_signed_url Demo.host body w
  = (Normal (UploadRoutes.BadRequest "fileKey is required"), w) /\
  UploadRoutes.status (UploadRoutes.BadRequest "fileKey is required") = 400.
Proof.
  exact (@missing_fileKey_is_rejected Demo.host (VObj [("expiresIn", VNum 60)]) VUndefined
           (Demo.start Demo.configured Demo.quiet) eq_refl eq_refl).
Defined.

(** An event whose topic is an object with an own [toString] property. *)
Lemma unshowable_event_is_dropped_witness :
  let data := VObj [("text", VStr "x"); ("topic", VObj [("toString", VNum 1)])] in
  let w := Demo.start Demo.configured Demo.quiet in
  @Index.on_send_message Demo.host "sock1" data w
  = (Normal tt, record (ConsoleError "Socket send-message error:" (Some TypeError)) w).
Proof.
  exact (@unshowable_event_is_dropped Demo.host "sock1"
           (VObj [("text", VStr "x"); ("topic", VObj [("toString", VNum 1)])])
           (VStr "x") (VObj [("toString", VNum 1)])
           (Demo.start Demo.configured Demo.quiet)
           eq_refl eq_refl (or_introl eq_refl)).
Defined.

(* ===================================================================== *)
(** ** Invariants of a polling run *)
(* ===================================================================== *)

Section Balance.

Lemma balanced_app (l1 l2 : list event) :
  deletes_follow_publishes l1 -> deletes_follow_publishes l2 ->
  deletes_follow_publishes (l1 ++ l2).
Proof.
  intros H1 H2 k. rewrite take_app, !count_app.
  specialize (H1 k). specialize (H2 (k - length l1)%nat). lia.
Qed.

Lemma balanced_neutral (l : list event) :
  forallb (fun ev => negb (is_delete ev)) l = true -> deletes_follow_publishes l.
Proof.
  intros H k.
  assert (Hz : count is_delete (take k l) = 0%nat).
  { apply count_none. revert k. induction l as [|ev l IH]; intros [|k]; cbn; try reflexivity.
    cbn in H. apply andb_prop in H. destruct H as [H1 H2]. rewrite H1. cbn. auto. }
  rewrite Hz. lia.
Qed.

End Balance.

Section RunInvariants.
Context {host : Host}.

Lemma on_message_balanced m w :
  exists evs,
    trace (handled w m) = (trace w ++ evs)%list /\ deletes_follow_publishes evs.
Proof.
  unfold deletes_follow_publishes, handled, Index.on_message, SqsConfig.deleteSQSMessage,
    SqsConfig.getSQSClient.
  unfold try_catch, bind, or_throw, read, ret, throw, console_log, console_error,
    emit_event, call_outside, set_sqsClient.
  destruct (JSON_parse (Body m)) as [body|]; cbn; [|settle_balance].
  destruct (get_field body "topic") as [t|]; cbn; [|settle_balance].
  destruct (ToString t) as [shown|]; cbn; [|settle_balance].
  destruct (outside w (calls w)); cbn; [|settle_balance].
  destruct (sqsClient w) as [c|]; cbn.
  - destruct (outside w (S (calls w))); cbn; settle_balance.
  - destruct (length (SqsConfig.missingVars (env w))); cbn.
    + destruct (outside w (S (calls w))); cbn; settle_balance.
    + settle_balance.
Qed.

Lemma batch_balanced ms : forall w,
  exists evs,
    trace (fold_left handled ms w) = (trace w ++ evs)%list /\
    deletes_follow_publishes evs.
Proof.
  induction ms as [|m rest IH]; intros w.
  - exists []. cbn. rewrite app_nil_r. split; [reflexivity|]. intros [|k]; cbn; lia.
  - cbn [fold_left].
    destruct (on_message_balanced m w) as (evs1 & Ht1 & Hb1).
    destruct (IH (handled w m)) as (evs2 & Ht2 & Hb2).
    exists (evs1 ++ evs2)%list. rewrite Ht2, Ht1, app_assoc.
    split; [reflexivity | apply balanced_app; assumption].
Qed.

Lemma receive_neutral w :
  exists evs,
    trace (snd (SqsConfig.receiveSQSMessages 5 w)) = (trace w ++ evs)%list /\
    forallb (fun ev => negb (is_delete ev)) evs = true.
Proof.
  destruct (ready w) eqn:Hr.
  - rewrite (receive_ready 5 w Hr). cbn zeta.
    exists (init_events w ++ [receive_request w])%list.
    split.
    + destruct (outside w (calls w)); cbn [snd called trace];
        rewrite connect_trace, <- app_assoc; reflexivity.
    + unfold init_events. destruct (sqsClient w); reflexivity.
  - rewrite (receive_missing 5 w Hr). exists [config_failure (env w)].
    split; reflexivity.
Qed.

Lemma round_balanced w :
  exists evs,
    trace (snd (Index.poll_round w)) = (trace w ++ evs)%list /\
    deletes_follow_publishes evs.
Proof.
  rewrite poll_round_cases.
  destruct (receive_neutral w) as (evs0 & Ht0 & Hn0).
  destruct (SqsConfig.receiveSQSMessages 5 w) as [[ms|e] w1]; cbn [snd] in *.
  - destruct (batch_balanced ms w1) as (evs1 & Ht1 & Hb1).
    exists (evs0 ++ evs1)%list. rewrite Ht1, Ht0, app_assoc.
    split; [reflexivity|]. apply balanced_app; [apply balanced_neutral|]; assumption.
  - exists (evs0 ++ [ConsoleError "SQS Polling Error:" (Some e); SetTimeout 5000])%list.
    cbn. rewrite Ht0, <- !app_assoc.
    split; [reflexivity|]. apply balanced_app; apply balanced_neutral; auto.
Qed.

Lemma rounds_balanced fuel : forall w,
  exists evs,
    trace (snd (while_true fuel Index.poll_round w)) = (trace w ++ evs)%list /\
    deletes_follow_publishes evs.
Proof.
  induction fuel as [|n IH]; intros w.
  - exists []. cbn. rewrite app_nil_r. split; [reflexivity|]. intros [|k]; cbn; lia.
  - cbn [while_true]. unfold bind.
    pose proof (poll_round_safe w) as Hs.
    destruct (round_balanced w) as (evs1 & Ht1 & Hb1).
    destruct (Index.poll_round w) as [r w1]. cbn in Hs, Ht1. subst r.
    destruct (IH w1) as (evs2 & Ht2 & Hb2).
    exists (evs1 ++ evs2)%list. rewrite Ht2, Ht1, app_assoc.
    split; [reflexivity | apply balanced_app; assumption].
Qed.

(** At every point of a polling run, whatever the queue, the sockets and the
    messages do, no more delete requests have been issued than broadcasts:
    the poller never deletes a message before something was published. *)
Theorem deletes_never_outrun_publishes (fuel : nat) (w : world) :
  exists evs,
    trace (snd (Index.startSQSPolling fuel w)) = (trace w ++ evs)%list /\
    deletes_follow_publishes evs.
Proof.
  unfold Index.startSQSPolling, bind, console_log, emit_event.
  destruct (rounds_balanced fuel (record (ConsoleLog "📡 Starting SQS polling loop...") w))
    as (evs & Ht & Hb).
  exists (ConsoleLog "📡 Starting SQS polling loop..." :: evs).
  rewrite Ht. cbn [record trace]. rewrite <- app_assoc.
  split; [reflexivity|].
  apply (balanced_app [ConsoleLog "📡 Starting SQS polling loop..."] evs);
    [apply balanced_neutral; reflexivity | exact Hb].
Qed.

End RunInvariants.

Section ReadyRuns.
Context {host : Host}.

(** With the client in hand, handling a message builds no client and sends
    no receive request. *)
Lemma on_message_cached m w c :
  sqsClient w = Some c ->
  exists evs,
    trace (handled w m) = (trace w ++ evs)%list /\
    count is_receive evs = 0%nat /\
    count is_client_built evs = 0%nat /\
    sqsClient (handled w m) = Some c.
Proof.
  intros Hc.
  unfold handled, Index.on_message, SqsConfig.deleteSQSMessage, SqsConfig.getSQSClient.
  unfold try_catch, bind, or_throw, read, ret, throw, console_log, console_error,
    emit_event, call_outside, set_sqsClient.
  destruct (JSON_parse (Body m)) as [body|]; cbn; [|settle_cached].
  destruct (get_field body "topic") as [t|]; cbn; [|settle_cached].
  destruct (ToString t) as [shown|]; cbn; [|settle_cached].
  destruct (outside w (calls w)); cbn; [|settle_cached].
  rewrite Hc. cbn.
  destruct (outside w (S (calls w))); cbn; settle_cached.
Qed.

Lemma batch_cached ms : forall w c,
  sqsClient w = Some c ->
  exists evs,
    trace (fold_left handled ms w) = (trace w ++ evs)%list /\
    count is_receive evs = 0%nat /\
    count is_client_built evs = 0%nat /\
    sqsClient (fold_left handled ms w) = Some c.
Proof.
  induction ms as [|m rest IH]; intros w c Hc.
  - exists []. cbn. rewrite app_nil_r. auto.
  - cbn [fold_left].
    destruct (on_message_cached m w c Hc) as (evs1 & Ht1 & Hr1 & Hb1 & Hc1).
    destruct (IH (handled w m) c Hc1) as (evs2 & Ht2 & Hr2 & Hb2 & Hc2).
    exists (evs1 ++ evs2)%list. rewrite Ht2, Ht1, app_assoc, !count_app, Hr1, Hr2, Hb1, Hb2.
    auto.
Qed.

(** A round of a ready process: one receive request, and the client is
    built in it exactly when it did not exist before. *)
Lemma round_of_ready w :
  ready w = true ->
  exists evs,
    trace (snd (Index.poll_round w)) = (trace w ++ evs)%list /\
    count is_receive evs = 1%nat /\
    count is_client_built evs = length (init_events w) /\
    sqsClient (snd (Index.poll_round w)) = Some (the_client w).
Proof.
  intros Hready. rewrite (round_ready w Hready). cbn zeta.
  assert (Hinit : count is_receive (init_events w) = 0%nat /\
                  count is_client_built (init_events w) = length (init_events w)).
  { unfold init_events. destruct (sqsClient w); split; reflexivity. }
  destruct Hinit as [Hi1 Hi2].
  assert (Hcl : sqsClient (called (receive_request w) (connect w)) = Some (the_client w))
    by apply connect_client.
  destruct (outside w (calls w)) as [r|e]; cbn [snd].
  - destruct (batch_cached (default [] (Messages r)) _ _ Hcl) as (evs & Ht & Hr & Hb & Hc).
    exists (init_events w ++ receive_request w :: evs)%list.
    rewrite Ht, Hc. cbn [called trace]. rewrite connect_trace, <- !app_assoc.
    split; [reflexivity|].
    rewrite !count_app, Hi1, Hi2.
    change (receive_request w :: evs) with ([receive_request w] ++ evs)%list.
    rewrite !count_app, Hr, Hb. cbn. repeat split; lia.
  - exists (init_events w
            ++ [receive_request w; ConsoleError "SQS Polling Error:" (Some e);
                SetTimeout 5000])%list.
    cbn. rewrite connect_trace, <- !app_assoc.
    split; [reflexivity|].
    rewrite !count_app, Hi1, Hi2. cbn. repeat split; try lia. apply connect_client.
Qed.

Lemma rounds_of_cached fuel : forall w c,
  sqsClient w = Some c ->
  exists evs,
    trace (snd (while_true fuel Index.poll_round w)) = (trace w ++ evs)%list /\
    count is_receive evs = fuel /\
    count is_client_built evs = 0%nat /\
    sqsClient (snd (while_true fuel Index.poll_round w)) = Some c.
Proof.
  induction fuel as [|n IH]; intros w c Hc.
  - exists []. cbn. rewrite app_nil_r. auto.
  - cbn [while_true]. unfold bind.
    assert (Hready : ready w = true) by (unfold ready; rewrite Hc; reflexivity).
    pose proof (poll_round_safe w) as Hs.
    destruct (round_of_ready w Hready) as (evs1 & Ht1 & Hr1 & Hb1 & Hc1).
    unfold init_events, the_client in Hb1, Hc1. rewrite Hc in Hb1, Hc1.
    destruct (Index.poll_round w) as [r w1]. cbn in Hs, Ht1, Hc1. subst r.
    destruct (IH w1 c Hc1) as (evs2 & Ht2 & Hr2 & Hb2 & Hc2).
    exists (evs1 ++ evs2)%list. rewrite Ht2, Ht1, app_assoc, !count_app, Hr1, Hr2, Hb1, Hb2.
    auto.
Qed.

(** A process whose queue client is available sends exactly one receive
    request per round of the loop and builds its client at most once, in
    the first round if it did not exist; from then on the same client is
    used. *)
Theorem ready_poller_receives_once_per_round (fuel : nat) (w : world) :
  ready w = true ->
  exists evs,
    trace (snd (Index.startSQSPolling (S fuel) w)) = (trace w ++ evs)%list /\
    count is_receive evs = S fuel /\
    count is_client_built evs = length (init_events w) /\
    (length (init_events w) <= 1)%nat /\
    sqsClient (snd (Index.startSQSPolling (S fuel) w)) = Some (the_client w).
Proof.
  intros Hready.
  assert (Hstart : Index.startSQSPolling (S fuel) w
                   = while_true (S fuel) Index.poll_round
                       (record (ConsoleLog "📡 Starting SQS polling loop...") w))
    by reflexivity.
  rewrite Hstart. clear Hstart.
  remember (record (ConsoleLog "📡 Starting SQS polling loop...") w) as w0 eqn:Ew0.
  assert (Hready0 : ready w0 = true) by (subst w0; exact Hready).
  assert (Hi0 : init_events w0 = init_events w) by (subst w0; reflexivity).
  assert (Hc0 : the_client w0 = the_client w) by (subst w0; reflexivity).
  assert (Ht0 : trace w0 = (trace w ++ [ConsoleLog "📡 Starting SQS polling loop..."])%list)
    by (subst w0; reflexivity).
  clear Ew0. cbn [while_true]. unfold bind.
  pose proof (poll_round_safe w0) as Hs.
  destruct (round_of_ready w0 Hready0) as (evs1 & Ht1 & Hr1 & Hb1 & Hc1).
  rewrite Hi0 in Hb1. rewrite Hc0 in Hc1. rewrite Ht0 in Ht1.
  destruct (Index.poll_round w0) as [r w1]. cbn in Hs, Ht1, Hc1. subst r.
  destruct (rounds_of_cached fuel w1 _ Hc1) as (evs2 & Ht2 & Hr2 & Hb2 & Hc2).
  exists (ConsoleLog "📡 Starting SQS polling loop..." :: evs1 ++ evs2)%list.
  rewrite Ht2, Ht1, Hc2. rewrite <- !app_assoc.
  split; [reflexivity|].
  change (ConsoleLog "📡 Starting SQS polling loop..." :: evs1 ++ evs2)%list
    with ([ConsoleLog "📡 Starting SQS polling loop..."] ++ evs1 ++ evs2)%list.
  rewrite !count_app, Hr1, Hr2, Hb1, Hb2. cbn.
  repeat split; try lia.
  unfold init_events. destruct (sqsClient w); cbn; lia.
Qed.

End ReadyRuns.

(** Three rounds of a freshly started, configured process. *)
Lemma ready_poller_receives_once_per_round_witness :
  let w := Demo.start Demo.configured Demo.quiet in
  exists evs,
    trace (snd (@Index.startSQSPolling Demo.host 3 w)) = (trace w ++ evs)%list /\
    count is_receive evs = 3%nat /\
    count is_client_built evs = length (init_events w) /\
    (length (init_events w) <= 1)%nat /\
    sqsClient (snd (@Index.startSQSPolling Demo.host 3 w)) = Some (the_client w).
Proof.
  exact (@ready_poller_receives_once_per_round Demo.host 2
           (Demo.start Demo.configured Demo.quiet) eq_refl).
Defined.

(* ===================================================================== *)
(** ** The HTTP route that sends a message *)
(* ===================================================================== *)

Section ApiMessages.
Context {host : Host}.

(** [POST /api/messages] on a body with fields: a falsy [text] is answered
    400 and nothing happens; otherwise one send request is made, whose
    envelope holds [text], [topic] and [timestamp] and nothing else of the
    request (in particular no [senderId]), and the answer is 200 when the
    request succeeds and 500 with its cause when it fails; without queue
    configuration the answer is 500 with the configuration error and no
    request is made.  Nothing is broadcast. *)
Theorem api_message_answers (body text topic : value) (w : world) :
  get_field body "text" = Some text ->
  get_field body "topic" = Some topic ->
  IndexRoutes.post_api_messages body w
  = (if truthy text then
       if ready w then
         (Normal match outside w (calls w) with
                 | Returns _ => IndexRoutes.Queued
                 | Throws e => IndexRoutes.Failed e
                 end,
          called (send_request [("text", text)] topic w) (connect w))
       else
         (Normal (IndexRoutes.Failed (Error (SqsConfig.errorMsg (env w)))),
          record (config_failure (env w)) w)
     else (Normal IndexRoutes.TextRequired, w)) /\
  props_of (SqsConfig.envelope [("text", text)] (SqsConfig.topic_or_general topic) (now w))
  = [("text", text); ("topic", SqsConfig.topic_or_general topic);
     ("timestamp", VStr (Date_toISOString (now w)))] /\
  count is_publish (trace (snd (IndexRoutes.post_api_messages body w)))
  = count is_publish (trace w).
Proof.
  intros Hx Ht.
  assert (Hrun :
    IndexRoutes.post_api_messages body w
    = (if truthy text then
         if ready w then
           (Normal match outside w (calls w) with
                   | Returns _ => IndexRoutes.Queued
                   | Throws e => IndexRoutes.Failed e
                   end,
            called (send_request [("text", text)] topic w) (connect w))
         else
           (Normal (IndexRoutes.Failed (Error (SqsConfig.errorMsg (env w)))),
            record (config_failure (env w)) w)
       else (Normal IndexRoutes.TextRequired, w))).
  { unfold IndexRoutes.post_api_messages, try_catch.
    unfold bind at 1, or_throw. rewrite Hx. cbn [ret].
    unfold bind at 1. rewrite Ht. cbn [ret].
    destruct (truthy text); cbn [negb]; [|reflexivity].
    unfold bind. destruct (ready w) eqn:Hr.
    - rewrite (send_ready _ topic w Hr). cbn zeta.
      destruct (outside w (calls w)); reflexivity.
    - rewrite (send_missing _ topic w Hr). reflexivity. }
  split; [exact Hrun|]. split; [reflexivity|].
  rewrite Hrun.
  destruct (truthy text); [|reflexivity].
  destruct (ready w); cbn [snd called record trace].
  - rewrite connect_trace, !count_app, init_events_quiet by reflexivity. cbn. lia.
  - rewrite count_app. cbn. lia.
Qed.

End ApiMessages.

(** The request of the README: [{ "text": "Hello World", "topic": "updates" }]. *)
Lemma api_message_answers_witness :
  let body := VObj [("text", VStr "Hello World"); ("topic", VStr "updates")] in
  let w := Demo.start Demo.configured Demo.quiet in
  @IndexRoutes.post_api_messages Demo.host body w
  = (Normal IndexRoutes.Queued,
     called (@send_request Demo.host [("text", VStr "Hello World")] (VStr "updates") w)
       (connect w)) /\
  props_of (@SqsConfig.envelope Demo.host [("text", VStr "Hello World")]
              (VStr "updates") (now w))
  = [("text", VStr "Hello World"); ("topic", VStr "updates");
     ("timestamp", VStr (@Date_toISOString Demo.host (now w)))] /\
  count is_publish (trace (snd (@IndexRoutes.post_api_messages Demo.host body w)))
  = count is_publish (trace w).
Proof.
  exact (@api_message_answers Demo.host
           (VObj [("text", VStr "Hello World"); ("topic", VStr "updates")])
           (VStr "Hello World") (VStr "updates")
           (Demo.start Demo.configured Demo.quiet) eq_refl eq_refl).
Defined.

(* ===================================================================== *)
(** ** The S3 client and the signing route, path by path *)
(* ===================================================================== *)

Section S3Client.

Lemma s3_connect_frame w :
  env (s3_connect w) = env w /\ now (s3_connect w) = now w /\
  outside (s3_connect w) = outside w /\ calls (s3_connect w) = calls w /\
  sqsClient (s3_connect w) = sqsClient w.
Proof. unfold s3_connect. destruct (s3Client w); cbn; auto. Qed.

Lemma s3_connect_trace w : trace (s3_connect w) = (trace w ++ s3_init_events w)%list.
Proof.
  unfold s3_connect, s3_init_events. destruct (s3Client w); cbn.
  - symmetry. apply app_nil_r.
  - reflexivity.
Qed.

Lemma getS3Client_ready w :
  s3_ready w = true ->
  S3Config.getS3Client w = (Normal (the_s3_client w), s3_connect w).
Proof.
  unfold s3_ready, S3Config.getS3Client, the_s3_client, s3_connect, bind, read.
  destruct (s3Client w) as [c|] eqn:E; intros H.
  - reflexivity.
  - destruct (length (S3Config.missingVars (env w))); [reflexivity | discriminate].
Qed.

Lemma getS3Client_missing w :
  s3_ready w = false ->
  S3Config.getS3Client w
  = (Abrupt (Error (S3Config.errorMsg (env w))), record (s3_config_failure (env w)) w).
Proof.
  unfold s3_ready, S3Config.getS3Client, bind, read.
  destruct (s3Client w) as [c|] eqn:E; intros H; [discriminate|].
  destruct (length (S3Config.missingVars (env w))); [discriminate | reflexivity].
Qed.

Lemma sign_ready key expiry w :
  s3_ready w = true ->
  S3Config.getSignedUrlForFile key expiry w
  = let signing :=
      called (Presign (the_s3_client w) (env w !! "AWS_S3_BUCKET_NAME") key expiry)
             (s3_connect w) in
    match outside w (calls w) with
    | Returns r => (Normal (Url r), signing)
    | Throws e => (Abrupt e, signing)
    end.
Proof.
  intros H. unfold S3Config.getSignedUrlForFile.
  unfold bind at 1, read.
  rewrite (bind_normal _ _ _ _ _ (getS3Client_ready w H)).
  destruct (s3_connect_frame w) as (_ & _ & Ho & Hc & _).
  unfold bind, call_outside, ret. rewrite Ho, Hc.
  destruct (outside w (calls w)); reflexivity.
Qed.

Lemma sign_missing key expiry w :
  s3_ready w = false ->
  S3Config.getSignedUrlForFile key expiry w
  = (Abrupt (Error (S3Config.errorMsg (env w))), record (s3_config_failure (env w)) w).
Proof.
  intros H. unfold S3Config.getSignedUrlForFile. unfold bind at 1, read.
  apply bind_abrupt. apply getS3Client_missing. exact H.
Qed.

End S3Client.

Section SigningPaths.
Context {host : Host}.

(** The signing route succeeds as follows: for a non-empty string key, an
    [expiresIn] that parses to the integer [n], an available S3 client, a
    signer that answers and an expiry date in range, the only effect is one
    signing request for that key with [min n 604800] seconds, and the
    answer is 200 with the signed URL, the CloudFront URL of the key, the
    same number of seconds and the expiry date counted from now.  The
    route applies no lower bound: [n] may be zero or negative.  The
    [expiresIn] of the request is a safe integer or ASCII text ([plain]),
    and [n] is not below the safe integers, so that [n] and its minimum
    with 604800 are those the language computes. *)
Theorem signed_url_is_answered (body raw : value) (key : string) (n : Z)
    (w : world) (r : reply) :
  get_field body "fileKey" = Some (VStr key) ->
  is_empty key = false ->
  get_field body "expiresIn" = Some raw ->
  plain (UploadRoutes.expiresIn_or_default raw) = true ->
  parseInt (UploadRoutes.expiresIn_or_default raw) = Some (Int n) ->
  - MAX_SAFE_INTEGER <= n ->
  s3_ready w = true ->
  outside w (calls w) = Returns r ->
  Z.abs (now w + Z.min n 604800 * 1000) <= 8640000000000000 ->
  exists cloudFrontUrl,
    S3Config.getCloudFrontUrl (env w) (VStr key) = Normal cloudFrontUrl /\
    UploadRoutes.post_get_signed_url body w
    = (Normal (UploadRoutes.SignedUrl (VStr key) (Url r) cloudFrontUrl (Z.min n 604800)
                 (Date_toISOString (now w + Z.min n 604800 * 1000))),
       called (Presign (the_s3_client w) (env w !! "AWS_S3_BUCKET_NAME") (VStr key)
                 (Int (Z.min n 604800)))
         (s3_connect w)).
Proof.
  intros Hk Hne Hraw _ Hp _ Hready Ho Hdate.
  assert (Hcf : exists cf, S3Config.getCloudFrontUrl (env w) (VStr key) = Normal cf).
  { unfold S3Config.getCloudFrontUrl.
    destruct (env w !! "AWS_CLOUDFRONT_DOMAIN") as [d|]; [|eauto].
    destruct (is_empty d); eauto. }
  destruct Hcf as (cf & Hcf). exists cf. split; [exact Hcf|].
  unfold UploadRoutes.post_get_signed_url, try_catch.
  unfold bind at 1, or_throw. rewrite Hk. cbn [ret].
  unfold bind at 1. rewrite Hraw. cbn [ret].
  cbn [truthy]. rewrite Hne. cbn [negb].
  unfold bind at 1. rewrite Hp. cbn [ret Math_min].
  change UploadRoutes.maxExpiry with 604800.
  unfold bind at 1. rewrite (sign_ready _ _ w Hready). cbn zeta. rewrite Ho.
  destruct (s3_connect_frame w) as (He & Hn & _).
  unfold bind at 1, read. cbn [called env].
  unfold bind at 1, lift. rewrite He, Hcf.
  unfold bind at 1. cbn [called now]. rewrite Hn.
  unfold bind, time_clip, num_add, num_mul.
  apply Z.leb_le in Hdate. rewrite Hdate. reflexivity.
Qed.


(** Without S3 configuration the signing route answers 500 with the
    configuration error, signs nothing and caches nothing, so every request
    fails the same way until the environment is fixed. *)
Theorem signing_needs_s3_configuration (body fileKey raw : value) (p : jsnum)
    (w : world) :
  get_field body "fileKey" = Some fileKey ->
  truthy fileKey = true ->
  get_field body "expiresIn" = Some raw ->
  parseInt (UploadRoutes.expiresIn_or_default raw) = Some p ->
  s3_ready w = false ->
  let failed :=
    record (ConsoleError "Signed URL error:" (Some (Error (S3Config.errorMsg (env w)))))
      (record (s3_config_failure (env w)) w) in
  UploadRoutes.post_get_signed_url body w
  = (Normal (UploadRoutes.ServerError "Failed to generate signed URL"
               (Error (S3Config.errorMsg (env w)))), failed) /\
  s3_ready failed = false /\
  calls failed = calls w.
Proof.
  intros Hk Htruthy Hraw Hp Hready failed.
  split; [|split; [exact Hready | reflexivity]].
  unfold UploadRoutes.post_get_signed_url, try_catch.
  unfold bind at 1, or_throw. rewrite Hk. cbn [ret].
  unfold bind at 1. rewrite Hraw. cbn [ret]. rewrite Htruthy. cbn [negb].
  unfold bind at 1. rewrite Hp. cbn [ret].
  unfold bind at 1. rewrite (sign_missing _ _ w Hready). reflexivity.
Qed.

End SigningPaths.

(** The request of the README, [{ fileKey, expiresIn: 7200 }]. *)
Lemma signed_url_is_answered_witness :
  let body := VObj [("fileKey", VStr "uploads/1234567890-filename.jpg");
                    ("expiresIn", VNum 7200)] in
  let w := Demo.start Demo.configured Demo.quiet in
  exists cloudFrontUrl,
    S3Config.getCloudFrontUrl (env w) (VStr "uploads/1234567890-filename.jpg")
    = Normal cloudFrontUrl /\
    @UploadRoutes.post_get_signed_url Demo.host body w
    = (Normal (UploadRoutes.SignedUrl (VStr "uploads/1234567890-filename.jpg")
                 (Url Demo.empty_reply) cloudFrontUrl (Z.min 7200 604800)
                 (@Date_toISOString Demo.host (now w + Z.min 7200 604800 * 1000))),
       called (Presign (the_s3_client w) (env w !! "AWS_S3_BUCKET_NAME")
                 (VStr "uploads/1234567890-filename.jpg") (Int (Z.min 7200 604800)))
         (s3_connect w)).
Proof.
  apply (@signed_url_is_answered Demo.host
           (VObj [("fileKey", VStr "uploads/1234567890-filename.jpg");
                  ("expiresIn", VNum 7200)])
           (VNum 7200) "uploads/1234567890-filename.jpg" 7200
           (Demo.start Demo.configured Demo.quiet) Demo.empty_reply);
    try reflexivity; vm_compute; discriminate.
Defined.


(** A request in a process whose bucket name is not set. *)
Lemma signing_needs_s3_configuration_witness :
  let body := VObj [("fileKey", VStr "uploads/a.jpg")] in
  let w := Demo.start (delete "AWS_S3_BUCKET_NAME" Demo.configured) Demo.quiet in
  let failed :=
    record (ConsoleError "Signed URL error:" (Some (Error (S3Config.errorMsg (env w)))))
      (record (s3_config_failure (env w)) w) in
  @UploadRoutes.post_get_signed_url Demo.host body w
  = (Normal (UploadRoutes.ServerError "Failed to generate signed URL"
               (Error (S3Config.errorMsg (env w)))), failed) /\
  s3_ready failed = false /\
  calls failed = calls w.
Proof.
  apply (@signing_needs_s3_configuration Demo.host
           (VObj [("fileKey", VStr "uploads/a.jpg")])
           (VStr "uploads/a.jpg") VUndefined (Int 3600)
           (Demo.start (delete "AWS_S3_BUCKET_NAME" Demo.configured) Demo.quiet));
    vm_compute; reflexivity.
Defined.

(* ===================================================================== *)
(** ** Storing and fetching objects *)
(* ===================================================================== *)

Section UploadSteps.

Import Uploads.

Lemma ubind_normal {A B} (m : MU A) (k : A -> MU B) u a u' :
  m u = (Normal a, u') -> ubind m k u = k a u'.
Proof. intros H. unfold ubind. rewrite H. reflexivity. Qed.

Lemma ubind_abrupt {A B} (m : MU A) (k : A -> MU B) u e u' :
  m u = (Abrupt e, u') -> ubind m k u = (Abrupt e, u').
Proof. intros H. unfold ubind. rewrite H. reflexivity. Qed.

Lemma lift_base_run {A} (m : M A) u r w' evs :
  m (base u) = (r, w') ->
  trace w' = (trace (base u) ++ evs)%list ->
  lift_base m u
  = (r, {| base := w'; objects := objects u; log := log u ++ map Old evs |}).
Proof.
  intros Hm Ht. unfold lift_base. rewrite Hm, Ht, drop_app_length. reflexivity.
Qed.

Lemma lift_base_quiet {A} (m : M A) u r :
  m (base u) = (r, base u) -> lift_base m u = (r, u).
Proof.
  intros Hm. unfold lift_base. rewrite Hm, drop_all. cbn. rewrite app_nil_r.
  destruct u; reflexivity.
Qed.

Lemma lift_base_noted ev u :
  lift_base (emit_event ev) u = (Normal tt, noted ev u).
Proof.
  apply (lift_base_run (emit_event ev) u (Normal tt) (record ev (base u)) [ev]);
    reflexivity.
Qed.

Lemma logged_then {B} line e (k : MU B) u :
  (let* _ := lift_base (console_error line (Some e)) in k) u
  = k (noted (ConsoleError line (Some e)) u).
Proof.
  unfold console_error, ubind. rewrite lift_base_noted. reflexivity.
Qed.

Lemma lift_getS3Client_ready u :
  s3_ready (base u) = true ->
  lift_base S3Config.getS3Client u = (Normal (the_s3_client (base u)), s3_connected u).
Proof.
  intros H.
  apply (lift_base_run _ u _ _ (s3_init_events (base u)) (getS3Client_ready _ H)).
  apply s3_connect_trace.
Qed.

Lemma lift_getS3Client_missing u :
  s3_ready (base u) = false ->
  lift_base S3Config.getS3Client u
  = (Abrupt (Error (S3Config.errorMsg (env (base u)))),
     noted (s3_config_failure (env (base u))) u).
Proof.
  intros H.
  apply (lift_base_run _ u _ _ [s3_config_failure (env (base u))]
           (getS3Client_missing _ H)).
  reflexivity.
Qed.

(** Sending [cmd] through the S3 client, from the first read of the
    environment on, and going on with [k]. *)
Lemma s3_request_ready {B} (cmd : option string -> s3_command)
    (k : S3Object -> MU B) u :
  s3_ready (base u) = true ->
  (let* bucket := lift_base (read (fun w => env w !! "AWS_S3_BUCKET_NAME")) in
   let* client := lift_base S3Config.getS3Client in
   let* response := s3_send client (cmd bucket) in
   k response) u
  = let request :=
      sent (the_s3_client (base u)) (cmd (env (base u) !! "AWS_S3_BUCKET_NAME"))
        (s3_connected u) in
    match outside (base u) (calls (base u)) with
    | Returns _ => k (objects u (calls (base u))) request
    | Throws e => (Abrupt e, request)
    end.
Proof.
  intros H.
  rewrite (ubind_normal _ _ u _ u
             (lift_base_quiet (read (fun w => env w !! "AWS_S3_BUCKET_NAME")) u _ eq_refl)).
  rewrite (ubind_normal _ _ _ _ _ (lift_getS3Client_ready u H)).
  unfold ubind, s3_send. cbn [s3_connected base objects].
  destruct (s3_connect_frame (base u)) as (_ & _ & Ho & Hc & _).
  rewrite Ho, Hc. destruct (outside (base u) (calls (base u))); reflexivity.
Qed.

Lemma s3_request_missing {B} (cmd : option string -> s3_command)
    (k : S3Object -> MU B) u :
  s3_ready (base u) = false ->
  (let* bucket := lift_base (read (fun w => env w !! "AWS_S3_BUCKET_NAME")) in
   let* client := lift_base S3Config.getS3Client in
   let* response := s3_send client (cmd bucket) in
   k response) u
  = (Abrupt (Error (S3Config.errorMsg (env (base u)))),
     noted (s3_config_failure (env (base u))) u).
Proof.
  intros H.
  rewrite (ubind_normal _ _ u _ u
             (lift_base_quiet (read (fun w => env w !! "AWS_S3_BUCKET_NAME")) u _ eq_refl)).
  apply ubind_abrupt. apply lift_getS3Client_missing. exact H.
Qed.

Lemma uploadToS3_ready buf name mime u :
  s3_ready (base u) = true ->
  uploadToS3 buf name mime u
  = let key := upload_key (now (base u)) name in
    let request :=
      sent (the_s3_client (base u))
        (PutObjectCommand (env (base u) !! "AWS_S3_BUCKET_NAME") key buf mime)
        (s3_connected u) in
    match outside (base u) (calls (base u)) with
    | Returns _ => (Normal key, request)
    | Throws e => (Abrupt e, request)
    end.
Proof.
  intros H. unfold uploadToS3.
  rewrite (ubind_normal _ _ u _ u (lift_base_quiet (read now) u _ eq_refl)).
  rewrite (s3_request_ready
             (fun bucket => PutObjectCommand bucket (upload_key (now (base u)) name) buf mime)
             (fun _ => uret (upload_key (now (base u)) name)) u H).
  reflexivity.
Qed.

Lemma uploadToS3_missing buf name mime u :
  s3_ready (base u) = false ->
  uploadToS3 buf name mime u
  = (Abrupt (Error (S3Config.errorMsg (env (base u)))),
     noted (s3_config_failure (env (base u))) u).
Proof.
  intros H. unfold uploadToS3.
  rewrite (ubind_normal _ _ u _ u (lift_base_quiet (read now) u _ eq_refl)).
  exact (s3_request_missing
           (fun bucket => PutObjectCommand bucket (upload_key (now (base u)) name) buf mime)
           (fun _ => uret (upload_key (now (base u)) name)) u H).
Qed.

Lemma getFileFromS3_ready key u :
  s3_ready (base u) = true ->
  getFileFromS3 key u
  = let request :=
      sent (the_s3_client (base u))
        (GetObjectCommand (env (base u) !! "AWS_S3_BUCKET_NAME") key)
        (s3_connected u) in
    match outside (base u) (calls (base u)) with
    | Returns _ => (Normal (objects u (calls (base u))), request)
    | Throws e => (Abrupt e, request)
    end.
Proof.
  intros H. unfold getFileFromS3.
  exact (s3_request_ready (fun bucket => GetObjectCommand bucket key) uret u H).
Qed.

Lemma getFileFromS3_missing key u :
  s3_ready (base u) = false ->
  getFileFromS3 key u
  = (Abrupt (Error (S3Config.errorMsg (env (base u)))),
     noted (s3_config_failure (env (base u))) u).
Proof.
  intros H. unfold getFileFromS3.
  exact (s3_request_missing (fun bucket => GetObjectCommand bucket key) uret u H).
Qed.

(** An uploaded key keeps its first character in its CloudFront URL. *)
Lemma cloudfront_of_upload_key e t name :
  S3Config.getCloudFrontUrl e (VStr (upload_key t name))
  = Normal (cloudfront_of e (upload_key t name)).
Proof.
  unfold S3Config.getCloudFrontUrl, cloudfront_of.
  destruct (e !! "AWS_CLOUDFRONT_DOMAIN") as [d|]; [|reflexivity].
  destruct (is_empty d); reflexivity.
Qed.

End UploadSteps.

Section UploadRoute.

Import Uploads.

Lemma after_put w :
  s3_ready w = true ->
  let w2 := answered (s3_connect w) in
  s3_ready w2 = true /\ the_s3_client w2 = the_s3_client w /\ s3_connect w2 = w2 /\
  s3_init_events w2 = [] /\
  env w2 = env w /\ outside w2 = outside w /\ calls w2 = S (calls w).
Proof.
  intros H. cbn zeta.
  unfold s3_ready, the_s3_client, s3_connect, s3_init_events, answered in *.
  destruct (s3Client w) eqn:E; cbn; rewrite ?E; auto 10.
Qed.

Lemma lift_sign_after_put key u2 w :
  base u2 = answered (s3_connect w) ->
  s3_ready w = true ->
  lift_base (S3Config.getSignedUrlForFile (VStr key) (Int 3600)) u2
  = let request :=
      signed (Presign (the_s3_client w) (env w !! "AWS_S3_BUCKET_NAME") (VStr key)
                (Int 3600)) u2 in
    match outside w (S (calls w)) with
    | Returns r => (Normal (Url r), request)
    | Throws e => (Abrupt e, request)
    end.
Proof.
  intros Hb Hready.
  destruct (after_put w Hready) as (Hr2 & Hc2 & Hs2 & _ & He2 & Ho2 & Hk2).
  rewrite <- Hb in Hr2, Hc2, Hs2, He2, Ho2, Hk2.
  pose proof (sign_ready (VStr key) (Int 3600) (base u2) Hr2) as Hsign.
  cbn zeta in Hsign. rewrite Hc2, Hs2, He2, Ho2, Hk2 in Hsign.
  unfold signed. cbn zeta.
  destruct (outside w (S (calls w))) as [r|e].
  - apply (lift_base_run _ u2 _ _ [_] Hsign). reflexivity.
  - apply (lift_base_run _ u2 _ _ [_] Hsign). reflexivity.
Qed.

(** [POST /api/upload] with a file, path by path. *)
Lemma post_upload_cases f u :
  post_upload (Some f) u
  = let w := base u in
    let key := upload_key (now w) (originalname f) in
    let client := the_s3_client w in
    let bucket := env w !! "AWS_S3_BUCKET_NAME" in
    if s3_ready w then
      let u2 :=
        sent client (PutObjectCommand bucket key (buffer f) (mimetype f))
          (s3_connected u) in
      match outside w (calls w) with
      | Throws e =>
          (Normal (UploadFailed e), noted (ConsoleError "Upload error:" (Some e)) u2)
      | Returns _ =>
          let u3 := signed (Presign client bucket (VStr key) (Int 3600)) u2 in
          match outside w (S (calls w)) with
          | Throws e =>
              (Normal (UploadFailed e), noted (ConsoleError "Upload error:" (Some e)) u3)
          | Returns r =>
              (Normal (Uploaded key (originalname f)
                         (Z.of_nat (String.length (buffer f))) (mimetype f) (Url r)
                         (cloudfront_of (env w) key) 3600), u3)
          end
      end
    else
      (Normal (UploadFailed (Error (S3Config.errorMsg (env w)))),
       noted (ConsoleError "Upload error:" (Some (Error (S3Config.errorMsg (env w)))))
         (noted (s3_config_failure (env w)) u)).
Proof.
  cbn zeta. unfold post_upload, utry_catch.
  destruct (s3_ready (base u)) eqn:Hready.
  - unfold ubind at 1. rewrite (uploadToS3_ready _ _ _ u Hready). cbn zeta.
    destruct (outside (base u) (calls (base u))) as [r1|e1].
    + set (u2 := sent _ _ (s3_connected u)).
      unfold ubind at 1.
      rewrite (lift_sign_after_put _ u2 (base u) eq_refl Hready). cbn zeta.
      destruct (outside (base u) (S (calls (base u)))) as [r2|e2].
      * set (u3 := signed _ u2).
        unfold ubind at 1.
        rewrite (lift_base_quiet (read env) u3 _ eq_refl).
        unfold ubind at 1.
        assert (He3 : env (base u3) = env (base u)).
        { subst u3 u2. cbn. destruct (s3_connect_frame (base u)) as (He & _). exact He. }
        rewrite He3, cloudfront_of_upload_key.
        rewrite (lift_base_quiet (lift _) u3 _ eq_refl).
        reflexivity.
      * rewrite logged_then. reflexivity.
    + rewrite logged_then. reflexivity.
  - unfold ubind at 1. rewrite (uploadToS3_missing _ _ _ u Hready).
    rewrite logged_then. reflexivity.
Qed.


(** Nothing is signed that was not stored: whatever the file and the state,
    a signing request appears among the effects of the upload route only
    after a put request for the same key that the store accepted, and it
    asks for 3600 seconds. *)
Theorem upload_signs_only_stored_objects (file : option File) (u : ustate) :
  exists evs,
    log (snd (post_upload file u)) = (log u ++ evs)%list /\
    forall c b k e,
      In (Old (Presign c b k e)) evs ->
      exists f r key before after,
        file = Some f /\
        outside (base u) (calls (base u)) = Returns r /\
        key = upload_key (now (base u)) (originalname f) /\
        k = VStr key /\ e = Int 3600 /\
        evs = (before ++ S3Send c (PutObjectCommand b key (buffer f) (mimetype f))
               :: Old (Presign c b k e) :: after)%list.
Proof.
  destruct file as [f|].
  2:{ exists []. cbn. rewrite app_nil_r. split; [reflexivity|]. intros ? ? ? ? []. }
  rewrite post_upload_cases. cbn zeta.
  assert (Hinit : forall c b k e,
            ~ In (Old (Presign c b k e)) (map Old (s3_init_events (base u)))).
  { intros c b k e. unfold s3_init_events. destruct (s3Client (base u)); cbn.
    - tauto.
    - intros [H|[]]. discriminate. }
  destruct (s3_ready (base u)).
  - destruct (outside (base u) (calls (base u))) as [r1|e1] eqn:H1.
    + destruct (outside (base u) (S (calls (base u)))) as [r2|e2]; cbn [snd].
      * eexists. split; [cbn; rewrite <- !app_assoc; reflexivity|].
        intros c b k e Hin. apply in_app_or in Hin.
        destruct Hin as [Hin|Hin]; [destruct (Hinit _ _ _ _ Hin)|].
        cbn in Hin. destruct Hin as [Hin|[Hin|[]]]; [discriminate|].
        inversion Hin; subst.
        exists f, r1, (upload_key (now (base u)) (originalname f)),
          (map Old (s3_init_events (base u))), [].
        repeat split; reflexivity.
      * eexists. split; [cbn; rewrite <- !app_assoc; reflexivity|].
        intros c b k e Hin. apply in_app_or in Hin.
        destruct Hin as [Hin|Hin]; [destruct (Hinit _ _ _ _ Hin)|].
        cbn in Hin. destruct Hin as [Hin|[Hin|[Hin|[]]]]; try discriminate.
        inversion Hin; subst.
        exists f, r1, (upload_key (now (base u)) (originalname f)),
          (map Old (s3_init_events (base u))),
          [Old (ConsoleError "Upload error:" (Some e2))].
        repeat split; reflexivity.
    + eexists. split; [cbn; rewrite <- !app_assoc; reflexivity|].
      intros c b k e Hin. apply in_app_or in Hin.
      destruct Hin as [Hin|Hin]; [destruct (Hinit _ _ _ _ Hin)|].
      cbn in Hin. destruct Hin as [Hin|[Hin|[]]]; discriminate.
  - eexists. split; [cbn; rewrite <- !app_assoc; reflexivity|].
    intros c b k e Hin. cbn in Hin. destruct Hin as [Hin|[Hin|[]]]; discriminate.
Qed.

End UploadRoute.

Section FetchRoute.

Import Uploads.

(** [GET /api/files/:key], path by path. *)
Lemma get_file_cases key u :
  get_file key u
  = let w := base u in
    if is_empty key then (Normal KeyRequired, u)
    else if s3_ready w then
      let u2 :=
        sent (the_s3_client w) (GetObjectCommand (env w !! "AWS_S3_BUCKET_NAME") key)
          (s3_connected u) in
      match outside w (calls w) with
      | Returns _ =>
          let o := objects u (calls w) in
          (Normal (Streamed (header_text (ContentType o))
                     (header_number (ContentLength o)) (ObjectBody o)), u2)
      | Throws e =>
          (Normal (if String.eqb (exn_name e) "NoSuchKey" then NotFound
                   else FetchFailed e),
           noted (ConsoleError "File fetch error:" (Some e)) u2)
      end
    else
      (Normal (FetchFailed (Error (S3Config.errorMsg (env w)))),
       noted (ConsoleError "File fetch error:"
                (Some (Error (S3Config.errorMsg (env w)))))
         (noted (s3_config_failure (env w)) u)).
Proof.
  cbn zeta. unfold get_file, utry_catch.
  destruct (is_empty key); [reflexivity|].
  destruct (s3_ready (base u)) eqn:Hready.
  - unfold ubind at 1. rewrite (getFileFromS3_ready key u Hready). cbn zeta.
    destruct (outside (base u) (calls (base u))) as [r|e].
    + reflexivity.
    + rewrite logged_then. destruct (String.eqb (exn_name e) "NoSuchKey"); reflexivity.
  - unfold ubind at 1. rewrite (getFileFromS3_missing key u Hready).
    rewrite logged_then. reflexivity.
Qed.

(** The fetch route answers 404 exactly when the fetch request was sent and
    the store rejected it with an error named [NoSuchKey]; an empty key,
    missing configuration and every other rejection get another answer. *)
Theorem fetch_not_found_iff (key : string) (u : ustate) :
  fst (get_file key u) = Normal NotFound <->
  is_empty key = false /\ s3_ready (base u) = true /\
  exists e, outside (base u) (calls (base u)) = Throws e /\ exn_name e = "NoSuchKey".
Proof.
  rewrite get_file_cases. cbn zeta.
  destruct (is_empty key).
  { split; [discriminate | intros [H _]; discriminate]. }
  destruct (s3_ready (base u)).
  2:{ split; [discriminate | intros (_ & H & _); discriminate]. }
  destruct (outside (base u) (calls (base u))) as [r|e]; cbn [fst].
  - split; [discriminate | intros (_ & _ & e & H & _); discriminate].
  - destruct (String.eqb (exn_name e) "NoSuchKey") eqn:En.
    + apply String.eqb_eq in En. split; [|reflexivity].
      intros _. repeat split. exists e. auto.
    + apply String.eqb_neq in En. split; [discriminate|].
      intros (_ & _ & e' & H & Hn). inversion H; subst. contradiction.
Qed.

(** A fetched object is piped into the response unchanged after a single
    fetch request for the key.  The handler itself sets [Content-Type]
    exactly when the store gave a non-empty type, and [Content-Length]
    exactly when the store gave a non-zero length: for an empty object it
    makes no [setHeader] call for the length and leaves that header to the
    HTTP layer. *)
Theorem fetch_streams_the_object (key : string) (u : ustate) (r : reply) :
  is_empty key = false ->
  s3_ready (base u) = true ->
  outside (base u) (calls (base u)) = Returns r ->
  let o := objects u (calls (base u)) in
  exists contentType contentLength u',
    get_file key u = (Normal (Streamed contentType contentLength (ObjectBody o)), u') /\
    log u'
    = (log u ++ map Old (s3_init_events (base u))
       ++ [S3Send (the_s3_client (base u))
             (GetObjectCommand (env (base u) !! "AWS_S3_BUCKET_NAME") key)])%list /\
    (forall s, contentType = Some s <-> ContentType o = Some s /\ s <> "") /\
    (forall n, contentLength = Some n <-> ContentLength o = Some n /\ n <> 0).
Proof.
  intros Hk Hready Ho o.
  rewrite get_file_cases. cbn zeta. rewrite Hk, Hready, Ho. fold o.
  do 3 eexists. split; [reflexivity|].
  split; [cbn; rewrite <- !app_assoc; reflexivity|].
  split.
  - intros s. unfold header_text. destruct (ContentType o) as [t|].
    + destruct t as [|c t]; cbn.
      * split; [discriminate | intros [H Hne]; inversion H; subst; contradiction].
      * split; [intros H; inversion H; subst; split; [reflexivity | discriminate]
               | intros [H _]; exact H].
    + split; [discriminate | intros [H _]; discriminate].
  - intros n. unfold header_number. destruct (ContentLength o) as [m|].
    + destruct (Z.eqb_spec m 0) as [->|Hne].
      * split; [discriminate | intros [H Hn]; inversion H; subst; contradiction].
      * split; [intros H; inversion H; subst; auto | intros [H _]; exact H].
    + split; [discriminate | intros [H _]; discriminate].
Qed.

End FetchRoute.


(** A fetch of an empty object: the handler sets the type only. *)
Lemma fetch_streams_the_object_witness :
  let u := {| Uploads.base := Demo.start Demo.configured Demo.quiet;
              Uploads.objects := fun _ => {| Uploads.ContentType := Some "image/png";
                                             Uploads.ContentLength := Some 0;
                                             Uploads.ObjectBody := "" |};
              Uploads.log := [] |} in
  let o := Uploads.objects u (calls (Uploads.base u)) in
  exists contentType contentLength u',
    Uploads.get_file "uploads/1-empty.png" u
    = (Normal (Uploads.Streamed contentType contentLength (Uploads.ObjectBody o)), u') /\
    Uploads.log u'
    = (Uploads.log u ++ map Uploads.Old (s3_init_events (Uploads.base u))
       ++ [Uploads.S3Send (the_s3_client (Uploads.base u))
             (Uploads.GetObjectCommand (env (Uploads.base u) !! "AWS_S3_BUCKET_NAME")
                "uploads/1-empty.png")])%list /\
    (forall s, contentType = Some s <-> Uploads.ContentType o = Some s /\ s <> "") /\
    (forall n, contentLength = Some n <-> Uploads.ContentLength o = Some n /\ n <> 0).
Proof.
  exact (fetch_streams_the_object "uploads/1-empty.png"
           {| Uploads.base := Demo.start Demo.configured Demo.quiet;
              Uploads.objects := fun _ => {| Uploads.ContentType := Some "image/png";
                                             Uploads.ContentLength := Some 0;
                                             Uploads.ObjectBody := "" |};
              Uploads.log := [] |}
           Demo.empty_reply eq_refl eq_refl eq_refl).
Defined.
